(** * AI headshot generator: the Gemini adapter and the ImageGenerator component

  A shallow embedding of [src/services/geminiService.ts] and of the
  [ImageGenerator] component of [src/App.tsx], with the properties of the
  adapter, of the prompt template and of the session state proved over it.

  Conventions.
  - A JavaScript [string] is a [string]; [string | null] is an
    [option string] and its truthiness is [truthy_str] (the empty string is
    falsy); an object reference or [null]/[undefined] is an [option].
  - A promise is modelled by the way it settles, [Settled]; an [async]
    function is cut at its [await]s into runs that are synchronous each.
  - What the browser, the network and the JavaScript engine answer is an
    input of the model: the outcome of the file read, the outcome of the
    model call, the object URL minted for a file, the text of a
    [TypeError].
  - The setter calls of one synchronous run are applied together when the
    run ends (the batching of React 18 and later); the component then
    renders, and the effects whose dependency changed run. A handler reads
    the state of the last render, as its closure does.
  - Time is counted in whole milliseconds, and an interval timer fires
    exactly when its delay has passed. *)

From Stdlib Require Import String Ascii List ZArith Lia Bool Arith.
From ExtLib Require Import Structures.Monad Structures.MonadState Data.Monads.StateMonad.
Import ListNotations.
Import MonadNotation.
Local Open Scope string_scope.
Local Open Scope monad_scope.

(** ** JavaScript values that cross the interfaces *)

Module Js.

(** Values that are not instances of [Error]. *)
Inductive NonError : Type :=
| VUndefined
| VNull
| VString (s : string)
| VNumber (z : Z)
| VProgressEvent (type : string).

(** What a [throw] or a rejected promise carries: [error instanceof Error]
    holds exactly for the first constructor. *)
Inductive Thrown : Type :=
| ThrownError (message : string)
| ThrownOther (v : NonError).

(** The settlement of a [Promise<A>]. *)
Inductive Settled (A : Type) : Type :=
| Fulfilled (a : A)
| Rejected (e : Thrown).
Arguments Fulfilled {A} a.
Arguments Rejected {A} e.

(** Truthiness of a [string | null] value. *)
Definition truthy_str (v : option string) : bool :=
  match v with
  | Some s => negb (String.eqb s "")
  | None => false
  end.

(** Truthiness of a plain string: only the empty string is falsy. *)
Definition truthy (s : string) : bool := negb (String.eqb s "").

(** [s.startsWith(p)]. *)
Definition startsWith (s p : string) : bool := String.prefix p s.

(** [s.includes(p)], by scanning the start positions left to right. *)
Fixpoint includes (s p : string) : bool :=
  String.prefix p s ||
  match s with
  | EmptyString => false
  | String _ s' => includes s' p
  end.

(** [s.slice(n)] for [n >= 0]: the string without its first [n] characters. *)
Fixpoint slice (n : nat) (s : string) : string :=
  match n, s with
  | 0, _ => s
  | S n', String _ s' => slice n' s'
  | S _, EmptyString => EmptyString
  end.

(** The number of positions of [s] at which [p] starts. *)
Fixpoint occurrences (p s : string) : nat :=
  (if String.prefix p s then 1 else 0) +
  match s with
  | EmptyString => 0
  | String _ s' => occurrences p s'
  end.

(** The property reads that fail at run time, each raising a [TypeError]. *)
Inductive Fault : Type :=
| ReadIndexOfUndefined      (* candidates is undefined *)
| ReadContentOfUndefined    (* candidates[0] is undefined *)
| ReadPartsOfUndefined      (* content is undefined *)
| NotIterable.              (* parts is undefined *)

(** The engine chooses the wording of a [TypeError]. *)
Class Engine : Type := { typeErrorMessage : Fault -> string }.

End Js.
Export Js.

(** ** Observable calls *)

Module Browser.

Record File : Type := mkFile {
  file_name : string;
  file_type : string;
  file_bytes : list ascii
}.

Inductive Modality : Type := TEXT | IMAGE | AUDIO.

(** The argument of [ai.models.generateContent]: one inline-data part and
    one text part, with the generation config. The inline data is whatever
    the encoder resolved with, [None] standing for [undefined]. *)
Record GenerateContentParameters : Type := mkRequest {
  req_model : string;
  req_inline_data : option string;
  req_inline_mimeType : string;
  req_text : string;
  req_responseModalities : list Modality
}.

(** Calls that leave the component, in the order they are made. *)
Inductive Effect : Type :=
| ReadAsDataURL (f : File)
| GenerateContent (r : GenerateContentParameters)
| ConsoleError (label : string) (e : Thrown)
| CreateObjectURL (f : File)
| RevokeObjectURL (url : string)
| SetInterval (id : nat) (delay : nat)
| ClearInterval (id : nat)
| ResetFileInput
| DownloadLink (href filename : string).

Definition is_encoder_call (e : Effect) : bool :=
  match e with ReadAsDataURL _ => true | _ => false end.

Definition is_network_call (e : Effect) : bool :=
  match e with GenerateContent _ => true | _ => false end.

End Browser.
Export Browser.

(** ** [services/geminiService.ts] *)

Module GeminiService.

(** The response of the model, with every field that the SDK may leave
    out as an option. The two fields of [inlineData] are strings, as the
    source annotates them. *)
Record Blob : Type := mkBlob { data : string; mimeType : string }.
Record Part : Type := mkPart { inlineData : option Blob; text : option string }.
Record Content : Type := mkContent { parts : option (list Part) }.
Record Candidate : Type := mkCandidate { content : option Content }.
Record GenerateContentResponse : Type :=
  mkResponse { candidates : option (list Candidate) }.

Definition dquote : string := String (ascii_of_nat 34) EmptyString.

(** The fixed part of the template literal, up to the interpolation. *)
Definition promptHead : string := "
    Transform the provided image into a professional, studio-quality headshot.
    The final image must be well-lit with soft, even lighting, suitable for a corporate or business profile like LinkedIn.
    The background must be a neutral, blurred background (like a solid light gray, or a soft office blur).
    The person's facial details must be sharp and in focus.
    The person should be centered, looking at the camera with a natural, confident expression.
    The final image must be highly realistic, resembling a photograph taken with a high-end DSLR camera.
    Strictly do not include any text, watermarks, or logos.
    ".

(** The fixed part after the interpolation: a line break and two blanks. *)
Definition promptTail : string := "
  ".

Definition instructionPhrase : string := "Incorporate these user instructions:".

(** The inner template literal of the interpolation. *)
Definition instructionClause (description : string) : string :=
  instructionPhrase ++ " " ++ dquote ++ description ++ dquote.

(** [fullPrompt], lines 11-20. *)
Definition fullPrompt (description : string) : string :=
  promptHead
  ++ (if truthy description then instructionClause description else "")
  ++ promptTail.

(** The request of lines 23-41. *)
Definition buildRequest (base64Image : option string) (mimeType description : string)
  : GenerateContentParameters :=
  {| req_model := "gemini-2.5-flash-image";
     req_inline_data := base64Image;
     req_inline_mimeType := mimeType;
     req_text := fullPrompt description;
     req_responseModalities := [IMAGE] |}.

Definition emptyResponseMessage : string :=
  "No image was generated. The response from the API was empty.".
Definition failurePrefix : string := "Failed to generate headshot: ".
Definition unknownFailureMessage : string :=
  "An unknown error occurred while generating the headshot.".
Definition consoleLabel : string := "Error generating image with Gemini API:".

(** The [for ... of] loop of lines 43-48: the first part whose
    [inlineData] is set decides the result. *)
Fixpoint firstInline (ps : list Part) : option Blob :=
  match ps with
  | [] => None
  | p :: ps' =>
      match inlineData p with
      | Some b => Some b
      | None => firstInline ps'
      end
  end.

Definition dataURI (b : Blob) : string :=
  "data:" ++ mimeType b ++ ";base64," ++ data b.

Section WithEngine.
Context {engine : Engine}.

Definition typeError (f : Fault) : Thrown := ThrownError (typeErrorMessage f).

(** [response.candidates[0].content.parts], evaluated left to right;
    the result is what the loop iterates over. *)
Definition responseParts (r : GenerateContentResponse) : Thrown + list Part :=
  match candidates r with
  | None => inl (typeError ReadIndexOfUndefined)
  | Some cs =>
      match cs with
      | [] => inl (typeError ReadContentOfUndefined)
      | c :: _ =>
          match content c with
          | None => inl (typeError ReadPartsOfUndefined)
          | Some ct =>
              match parts ct with
              | None => inl (typeError NotIterable)
              | Some ps => inr ps
              end
          end
      end
  end.

(** The body of the [try] block after the call has settled, lines 23-49:
    either a returned value or what is thrown into the [catch]. *)
Definition tryBody (outcome : Settled GenerateContentResponse) : Thrown + string :=
  match outcome with
  | Rejected e => inl e
  | Fulfilled response =>
      match responseParts response with
      | inl e => inl e
      | inr ps =>
          match firstInline ps with
          | Some b => inr (dataURI b)
          | None => inl (ThrownError emptyResponseMessage)
          end
      end
  end.

(** The [catch] block, lines 50-56: it logs and always throws again. *)
Definition catchBlock (error : Thrown) : list Effect * Thrown :=
  ([ConsoleError consoleLabel error],
   match error with
   | ThrownError message => ThrownError (failurePrefix ++ message)
   | ThrownOther _ => ThrownError unknownFailureMessage
   end).

(** What [generateHeadshot] does once the model call has settled. *)
Definition generateHeadshot_settle (outcome : Settled GenerateContentResponse)
  : list Effect * Settled string :=
  match tryBody outcome with
  | inr uri => ([], Fulfilled uri)
  | inl error => let (log, e) := catchBlock error in (log, Rejected e)
  end.

(** [generateHeadshot], against a given behaviour of
    [ai.models.generateContent]: the calls it makes and how its promise
    settles. *)
Definition generateHeadshot
    (generateContent : GenerateContentParameters -> Settled GenerateContentResponse)
    (base64Image : option string) (mimeType description : string)
  : list Effect * Settled string :=
  let request := buildRequest base64Image mimeType description in
  let (log, result) := generateHeadshot_settle (generateContent request) in
  (GenerateContent request :: log, result).

End WithEngine.

(** A response whose first candidate carries the parts [ps]. *)
Definition responseWith (ps : list Part) (cs : list Candidate) : GenerateContentResponse :=
  mkResponse (Some (mkCandidate (Some (mkContent (Some ps))) :: cs)).

Definition noInline (p : Part) : Prop := inlineData p = None.
Definition hasInline (p : Part) : Prop := inlineData p <> None.

(** An engine to run the adapter on in examples. *)
Definition exampleEngine : Engine :=
  {| typeErrorMessage := fun _ => "type error" |}.

End GeminiService.

(** ** The [ImageGenerator] component of [App.tsx] *)

Module ImageGenerator.
Import GeminiService.

Definition loadingMessages : list string :=
  [ "Warming up the studio lights...";
    "Adjusting the camera lens...";
    "Finding the perfect angle...";
    "Applying professional touch-ups...";
    "Developing the photo in the digital darkroom...";
    "Polishing the final image..." ].

(** [loadingMessages[0]]. *)
Definition firstLoadingMessage : string := nth 0 loadingMessages "undefined".

(** *** The encoder, [fileToBase64] *)

(** How the [FileReader] finishes: [onload] with [reader.result], or
    [onerror] with the event it is handed. *)
Inductive ReadOutcome : Type :=
| Loaded (result : string)
| ReadFailed (ev : NonError).

(** [s.split(sep)] for a one-character separator. *)
Fixpoint split (sep : ascii) (s : string) : list string :=
  match s with
  | EmptyString => [EmptyString]
  | String c s' =>
      if Ascii.eqb c sep then EmptyString :: split sep s'
      else match split sep s' with
           | h :: t => String c h :: t
           | [] => [String c EmptyString]
           end
  end.

Definition comma : ascii := ascii_of_nat 44.

(** The promise of [fileToBase64]: [result.split(',')[1]], which is
    [undefined] when the result holds no comma. *)
Definition fileToBase64_settle (o : ReadOutcome) : Settled (option string) :=
  match o with
  | Loaded result => Fulfilled (nth_error (split comma result) 1)
  | ReadFailed ev => Rejected (ThrownOther ev)
  end.

(** [fileToBase64], against a given behaviour of the [FileReader]: the call
    it makes and how its promise settles. *)
Definition fileToBase64 (readAsDataURL : File -> ReadOutcome) (file : File)
  : list Effect * Settled (option string) :=
  ([ReadAsDataURL file], fileToBase64_settle (readAsDataURL file)).

(** *** Component state *)

(** The [useState] cells, in the order of lines 59-66. *)
Record State : Type := mkState {
  description : string;
  sourceImageFile : option File;
  sourceImagePreview : option string;
  generatedImage : option string;
  isLoading : bool;
  error : option string;
  loadingMessage : string;
  isDragging : bool
}.

(** A call of one of the setters. *)
Inductive Update : Type :=
| SetDescription (v : string)
| SetSourceImageFile (v : option File)
| SetSourceImagePreview (v : option string)
| SetGeneratedImage (v : option string)
| SetIsLoading (v : bool)
| SetError (v : option string)
| SetLoadingMessage (v : string)
| UpdateLoadingMessage (f : string -> string)
| SetIsDragging (v : bool).

Definition applyUpdate (s : State) (u : Update) : State :=
  match u with
  | SetDescription v =>
      mkState v (sourceImageFile s) (sourceImagePreview s) (generatedImage s)
              (isLoading s) (error s) (loadingMessage s) (isDragging s)
  | SetSourceImageFile v =>
      mkState (description s) v (sourceImagePreview s) (generatedImage s)
              (isLoading s) (error s) (loadingMessage s) (isDragging s)
  | SetSourceImagePreview v =>
      mkState (description s) (sourceImageFile s) v (generatedImage s)
              (isLoading s) (error s) (loadingMessage s) (isDragging s)
  | SetGeneratedImage v =>
      mkState (description s) (sourceImageFile s) (sourceImagePreview s) v
              (isLoading s) (error s) (loadingMessage s) (isDragging s)
  | SetIsLoading v =>
      mkState (description s) (sourceImageFile s) (sourceImagePreview s)
              (generatedImage s) v (error s) (loadingMessage s) (isDragging s)
  | SetError v =>
      mkState (description s) (sourceImageFile s) (sourceImagePreview s)
              (generatedImage s) (isLoading s) v (loadingMessage s) (isDragging s)
  | SetLoadingMessage v =>
      mkState (description s) (sourceImageFile s) (sourceImagePreview s)
              (generatedImage s) (isLoading s) (error s) v (isDragging s)
  | UpdateLoadingMessage f =>
      mkState (description s) (sourceImageFile s) (sourceImagePreview s)
              (generatedImage s) (isLoading s) (error s) (f (loadingMessage s))
              (isDragging s)
  | SetIsDragging v =>
      mkState (description s) (sourceImageFile s) (sourceImagePreview s)
              (generatedImage s) (isLoading s) (error s) (loadingMessage s) v
  end.

(** The initial values of the cells. *)
Definition initialState : State :=
  mkState "" None None None false None firstLoadingMessage false.

(** A live [setInterval] timer and the time since it last fired. *)
Record Timer : Type := mkTimer {
  timer_id : nat;
  timer_delay : nat;
  timer_elapsed : nat
}.

(** A suspended [handleGenerate]: the values it closed over. *)
Inductive InFlight : Type :=
| AwaitingRead (file : File) (description : string)
| AwaitingCall (file : File) (description : string).

(** A mounted component: the committed state, the ref, the timers of the
    window, the calls made so far and the suspended handler if any. *)
Record Instance : Type := mkInstance {
  state : State;
  intervalRef : option nat;
  timers : list Timer;
  nextTimerId : nat;
  log : list Effect;
  inflight : option InFlight
}.

(** A handler at work: the instance and the setter calls of the current
    synchronous run, which are applied together when the run ends. *)
Record Fiber : Type := mkFiber {
  inst : Instance;
  queue : list Update
}.

Definition Handler : Type -> Type := Data.Monads.StateMonad.state Fiber.

Definition onInstance (f : Instance -> Instance) : Handler unit :=
  modify (fun fb => mkFiber (f (inst fb)) (queue fb)) ;; ret tt.

Definition enqueue (u : Update) : Handler unit :=
  modify (fun fb => mkFiber (inst fb) (queue fb ++ [u])) ;; ret tt.

(** The state of the render whose closures the handlers are. *)
Definition rendered : Handler State := gets (fun fb => state (inst fb)).

Definition emit (e : Effect) : Handler unit :=
  onInstance (fun i => mkInstance (state i) (intervalRef i) (timers i)
                                  (nextTimerId i) (log i ++ [e]) (inflight i)).

Definition emitAll (es : list Effect) : Handler unit :=
  onInstance (fun i => mkInstance (state i) (intervalRef i) (timers i)
                                  (nextTimerId i) (log i ++ es) (inflight i)).

Definition setInflight (p : option InFlight) : Handler unit :=
  onInstance (fun i => mkInstance (state i) (intervalRef i) (timers i)
                                  (nextTimerId i) (log i) p).

Definition setIntervalRef (r : option nat) : Handler unit :=
  onInstance (fun i => mkInstance (state i) r (timers i)
                                  (nextTimerId i) (log i) (inflight i)).

Definition setDescription v := enqueue (SetDescription v).
Definition setSourceImageFile v := enqueue (SetSourceImageFile v).
Definition setSourceImagePreview v := enqueue (SetSourceImagePreview v).
Definition setGeneratedImage v := enqueue (SetGeneratedImage v).
Definition setIsLoading v := enqueue (SetIsLoading v).
Definition setError v := enqueue (SetError v).
Definition setLoadingMessage v := enqueue (SetLoadingMessage v).
Definition setIsDragging v := enqueue (SetIsDragging v).

(** *** Timers *)

(** [window.setInterval(callback, delay)]: a fresh, non-zero handle. *)
Definition windowSetInterval (delay : nat) : Handler nat :=
  id <- gets (fun fb => nextTimerId (inst fb)) ;;
  onInstance (fun i => mkInstance (state i) (intervalRef i)
                                  (timers i ++ [mkTimer id delay 0])
                                  (S id) (log i) (inflight i)) ;;
  emit (SetInterval id delay) ;;
  ret id.

Definition clearInterval (id : nat) : Handler unit :=
  onInstance (fun i => mkInstance (state i) (intervalRef i)
                                  (filter (fun t => negb (Nat.eqb (timer_id t) id)) (timers i))
                                  (nextTimerId i) (log i) (inflight i)) ;;
  emit (ClearInterval id).

(** Truthiness of [intervalRef.current], a number or [null]. *)
Definition truthy_num (r : option nat) : option nat :=
  match r with
  | Some 0 => None
  | Some n => Some n
  | None => None
  end.

(** [loadingMessages.indexOf(x)]: the first index, or -1. *)
Fixpoint indexOfFrom (l : list string) (x : string) (i : Z) : Z :=
  match l with
  | [] => (-1)%Z
  | y :: l' => if String.eqb y x then i else indexOfFrom l' x (i + 1)%Z
  end.

Definition indexOf (l : list string) (x : string) : Z := indexOfFrom l x 0%Z.

(** The functional update of the interval callback, lines 74-78. *)
Definition nextLoadingMessage (prev : string) : string :=
  let currentIndex := indexOf loadingMessages prev in
  let nextIndex := Z.rem (currentIndex + 1) (Z.of_nat (length loadingMessages)) in
  nth (Z.to_nat nextIndex) loadingMessages "undefined".

(** The message that is [n] places after the first one, cyclically. *)
Definition messageAt (n : nat) : string :=
  nth (n mod length loadingMessages) loadingMessages "undefined".

Definition intervalCallback : Handler unit :=
  enqueue (UpdateLoadingMessage nextLoadingMessage).

(** *** Effects of the component *)

(** The effect on [isLoading], lines 72-83. *)
Definition loadingEffect (isLoading : bool) : Handler unit :=
  if isLoading then
    id <- windowSetInterval 3000 ;;
    setIntervalRef (Some id)
  else
    r <- gets (fun fb => intervalRef (inst fb)) ;;
    match truthy_num r with
    | Some id => clearInterval id ;; setIntervalRef None
    | None => ret tt
    end.

(** Its cleanup, lines 85-87. *)
Definition loadingEffectCleanup : Handler unit :=
  r <- gets (fun fb => intervalRef (inst fb)) ;;
  match truthy_num r with
  | Some id => clearInterval id
  | None => ret tt
  end.

(** The cleanup of the effect on [sourceImagePreview], lines 91-95, which
    closes over the preview of the render that installed it. *)
Definition previewEffectCleanup (sourceImagePreview : option string) : Handler unit :=
  if truthy_str sourceImagePreview then
    match sourceImagePreview with
    | Some url => emit (RevokeObjectURL url)
    | None => ret tt
    end
  else ret tt.

Definition option_eqb (a b : option string) : bool :=
  match a, b with
  | Some x, Some y => String.eqb x y
  | None, None => true
  | _, _ => false
  end.

(** The effects after a render from [old] to [new]: those whose dependency
    changed run, all cleanups before all effects. *)
Definition runEffects (old new : State) : Handler unit :=
  let loadingChanged := negb (Bool.eqb (isLoading old) (isLoading new)) in
  let previewChanged :=
    negb (option_eqb (sourceImagePreview old) (sourceImagePreview new)) in
  (if loadingChanged then loadingEffectCleanup else ret tt) ;;
  (if previewChanged then previewEffectCleanup (sourceImagePreview old) else ret tt) ;;
  (if loadingChanged then loadingEffect (isLoading new) else ret tt).

(** The end of a synchronous run: the queued setter calls are applied in
    order, the component renders, and the effects run. *)
Definition commit : Handler unit :=
  fb <- get ;;
  let old := state (inst fb) in
  let new := fold_left applyUpdate (queue fb) old in
  let i := inst fb in
  put (mkFiber (mkInstance new (intervalRef i) (timers i) (nextTimerId i)
                           (log i) (inflight i)) []) ;;
  runEffects old new.

(** A handler that calls no setter and parks no continuation: it leaves the
    committed state, the queue and the pending handler as they are. *)
Definition keeps (h : Handler unit) : Prop :=
  forall fb,
    state (inst (snd (runState h fb))) = state (inst fb)
    /\ queue (snd (runState h fb)) = queue fb
    /\ inflight (inst (snd (runState h fb))) = inflight (inst fb).

(** The instance after mounting: both effects run once and do nothing. *)
Definition mount : Instance :=
  mkInstance initialState None [] 1 [] None.

(** What a handler leaves behind when its run ends: the instance as it has
    changed it, and the setter calls it has made. *)
Definition ranOn (h : Handler unit) (i : Instance) : Fiber :=
  snd (runState h (mkFiber i [])).

(** Running one handler (or one continuation) to its end, and rendering. *)
Definition invoke (h : Handler unit) (i : Instance) : Instance :=
  inst (execState (h ;; commit) (mkFiber i [])).

(** *** What is rendered *)

(** The three branches of the returned element, lines 190-271. *)
Inductive View : Type := LoadingView | ResultView | FormView.

Definition view (s : State) : View :=
  if isLoading s then LoadingView
  else if truthy_str (generatedImage s) then ResultView
  else FormView.

(** The file input (and the drop zone around it) is part of the form only
    while no preview is shown; [fileInputRef.current] is set exactly then. *)
Definition fileInputMounted (s : State) : bool :=
  match view s with
  | FormView => negb (truthy_str (sourceImagePreview s))
  | _ => false
  end.

(** The error paragraph of line 262: part of the form, and rendered only
    for a truthy message. *)
Definition shownError (s : State) : option string :=
  match view s with
  | FormView => if truthy_str (error s) then error s else None
  | _ => None
  end.

(** The [disabled] attribute of the generate button, line 265. *)
Definition generateDisabled (s : State) : bool :=
  isLoading s || match sourceImageFile s with Some _ => false | None => true end.

(** *** Handlers *)

Definition invalidFileMessage : string :=
  "Please upload a valid image file (PNG, JPG, WEBP).".
Definition noImageMessage : string := "Please upload an image to start.".
Definition unexpectedErrorMessage : string := "An unexpected error occurred.".
Definition downloadName : string := "ai-headshot.jpg".

(** [handleFileSelect], lines 98-111. [minted] is the URL that
    [URL.createObjectURL] answers if it is called. *)
Definition handleFileSelect (minted : string) (file : option File) : Handler unit :=
  s <- rendered ;;
  match file with
  | Some f =>
      if negb (startsWith (file_type f) "image/") then
        setError (Some invalidFileMessage)
      else
        (if truthy_str (sourceImagePreview s) then
           match sourceImagePreview s with
           | Some url => emit (RevokeObjectURL url)
           | None => ret tt
           end
         else ret tt) ;;
        setSourceImageFile (Some f) ;;
        emit (CreateObjectURL f) ;;
        setSourceImagePreview (Some minted) ;;
        setError None
  | None => ret tt
  end.

Definition handleFileChange (minted : string) (file : option File) : Handler unit :=
  handleFileSelect minted file.

Definition handleDragOver : Handler unit := setIsDragging true.
Definition handleDragLeave : Handler unit := setIsDragging false.

Definition handleDrop (minted : string) (file : option File) : Handler unit :=
  setIsDragging false ;;
  handleFileSelect minted file.

(** [clearSourceImage], lines 136-142. *)
Definition clearSourceImage : Handler unit :=
  setSourceImageFile None ;;
  setSourceImagePreview None ;;
  s <- rendered ;;
  if fileInputMounted s then emit ResetFileInput else ret tt.

(** [handleGenerate] up to its first [await], lines 144-156. *)
Definition handleGenerate : Handler unit :=
  s <- rendered ;;
  match sourceImageFile s with
  | None => setError (Some noImageMessage)
  | Some file =>
      setIsLoading true ;;
      setError None ;;
      setGeneratedImage None ;;
      setLoadingMessage firstLoadingMessage ;;
      emit (ReadAsDataURL file) ;;
      setInflight (Some (AwaitingRead file (description s)))
  end.

(** The [catch] block of [handleGenerate], lines 159-164. *)
Definition catchMessage (err : Thrown) : string :=
  match err with
  | ThrownError message => message
  | ThrownOther _ => unexpectedErrorMessage
  end.

Definition handleGenerate_catch (err : Thrown) : Handler unit :=
  setError (Some (catchMessage err)).

(** The [finally] block, lines 165-167; the handler is over after it. *)
Definition handleGenerate_finally : Handler unit :=
  setIsLoading false ;;
  setInflight None.

Section WithEngine.
Context {engine : Engine}.

(** [handleGenerate] from the settlement of [fileToBase64] to the next
    [await]: line 157 up to the model call inside [generateHeadshot]. *)
Definition handleGenerate_afterRead (file : File) (description : string)
    (o : ReadOutcome) : Handler unit :=
  match fileToBase64_settle o with
  | Fulfilled base64Image =>
      emit (GenerateContent (buildRequest base64Image (file_type file) description)) ;;
      setInflight (Some (AwaitingCall file description))
  | Rejected err =>
      handleGenerate_catch err ;;
      handleGenerate_finally
  end.

(** [handleGenerate] from the settlement of the model call to its end:
    the rest of [generateHeadshot], then lines 158-167. *)
Definition handleGenerate_afterCall (o : Settled GenerateContentResponse)
  : Handler unit :=
  let (effects, result) := generateHeadshot_settle o in
  emitAll effects ;;
  match result with
  | Fulfilled imageUrl => setGeneratedImage (Some imageUrl)
  | Rejected err => handleGenerate_catch err
  end ;;
  handleGenerate_finally.

End WithEngine.

(** [handleDownload], lines 170-178. *)
Definition handleDownload : Handler unit :=
  s <- rendered ;;
  if truthy_str (generatedImage s) then
    match generatedImage s with
    | Some href => emit (DownloadLink href downloadName)
    | None => ret tt
    end
  else ret tt.

(** [handleStartOver], lines 180-186. *)
Definition handleStartOver : Handler unit :=
  setDescription "" ;;
  setGeneratedImage None ;;
  setError None ;;
  setIsLoading false ;;
  clearSourceImage.

(** *** Events *)

(** What can happen to a mounted component: the user acts on an element
    that is rendered, a pending promise settles, or time passes. *)
Inductive Event : Type :=
| ChooseFile (file : option File) (minted : string)
| DragOver
| DragLeave
| Drop (file : option File) (minted : string)
| ClickClear
| TypeDescription (v : string)
| ClickGenerate
| ClickDownload
| ClickStartOver
| ReadSettled (o : ReadOutcome)
| CallSettled (o : Settled GenerateContentResponse)
| Elapse (ms : nat).

(** An event can occur only if the last render offers its element, and a
    settlement only if the handler is waiting for it. *)
Definition enabled (i : Instance) (ev : Event) : bool :=
  let s := state i in
  match ev with
  | ChooseFile _ _ | DragOver | DragLeave | Drop _ _ => fileInputMounted s
  | ClickClear =>
      match view s with
      | FormView => truthy_str (sourceImagePreview s)
      | _ => false
      end
  | TypeDescription _ =>
      match view s with FormView => true | _ => false end
  | ClickGenerate =>
      match view s with FormView => negb (generateDisabled s) | _ => false end
  | ClickDownload | ClickStartOver =>
      match view s with ResultView => true | _ => false end
  | ReadSettled _ =>
      match inflight i with Some (AwaitingRead _ _) => true | _ => false end
  | CallSettled _ =>
      match inflight i with Some (AwaitingCall _ _) => true | _ => false end
  | Elapse _ => true
  end.

(** How often a timer fires in the next [ms] milliseconds, and the timer
    after them. *)
Definition fireCount (ms : nat) (t : Timer) : nat :=
  (timer_elapsed t + ms) / timer_delay t.

Definition ageTimer (ms : nat) (t : Timer) : Timer :=
  mkTimer (timer_id t) (timer_delay t) ((timer_elapsed t + ms) mod timer_delay t).

(** [n] runs of the interval callback, each followed by a render. *)
Fixpoint fire (n : nat) (i : Instance) : Instance :=
  match n with
  | 0 => i
  | S n' => fire n' (invoke intervalCallback i)
  end.

(** [ms] milliseconds pass: every live timer fires as often as is due. *)
Definition elapse (ms : nat) (i : Instance) : Instance :=
  let due := list_sum (map (fireCount ms) (timers i)) in
  fire due (mkInstance (state i) (intervalRef i) (map (ageTimer ms) (timers i))
                       (nextTimerId i) (log i) (inflight i)).

Section WithEngine.
Context {engine : Engine}.

Definition handlerOf (i : Instance) (ev : Event) : Handler unit :=
  match ev with
  | ChooseFile file minted => handleFileChange minted file
  | DragOver => handleDragOver
  | DragLeave => handleDragLeave
  | Drop file minted => handleDrop minted file
  | ClickClear => clearSourceImage
  | TypeDescription v => setDescription v
  | ClickGenerate => handleGenerate
  | ClickDownload => handleDownload
  | ClickStartOver => handleStartOver
  | ReadSettled o =>
      match inflight i with
      | Some (AwaitingRead file description) =>
          handleGenerate_afterRead file description o
      | _ => ret tt
      end
  | CallSettled o =>
      match inflight i with
      | Some (AwaitingCall _ _) => handleGenerate_afterCall o
      | _ => ret tt
      end
  | Elapse _ => ret tt
  end.

(** One event on a mounted component. *)
Definition step (i : Instance) (ev : Event) : Instance :=
  if enabled i ev then
    match ev with
    | Elapse ms => elapse ms i
    | _ => invoke (handlerOf i ev) i
    end
  else i.

Definition run (i : Instance) (evs : list Event) : Instance :=
  fold_left step evs i.

(** The instances a user can bring about. *)
Definition reachable (i : Instance) : Prop :=
  exists evs, i = run mount evs.

End WithEngine.

(** The time an event takes, and the time a sequence of events takes. *)
Definition elapsedOf (ev : Event) : nat :=
  match ev with
  | Elapse ms => ms
  | _ => 0
  end.

Definition elapsed (evs : list Event) : nat := list_sum (map elapsedOf evs).

(** The settlements after which [handleGenerate] runs its [finally] block:
    a file read that fails, and the model call however it settles. *)
Definition endsGenerating (ev : Event) : bool :=
  match ev with
  | ReadSettled (ReadFailed _) => true
  | CallSettled _ => true
  | _ => false
  end.

(** The events in which a promise of [handleGenerate] settles: the file
    read of line 156 or the model call of line 157. *)
Definition settles (ev : Event) : bool :=
  match ev with
  | ReadSettled _ | CallSettled _ => true
  | _ => false
  end.

(** *** The phases of the specification *)

Inductive Phase : Type := Idle | ImageSelected | Generating | Succeeded | Failed.

(** The phase a component state stands for: the view decides between
    generating, succeeded and the form, and on the form the selected file
    and the error message decide. *)
Definition phase (s : State) : Phase :=
  match view s with
  | LoadingView => Generating
  | ResultView => Succeeded
  | FormView =>
      match sourceImageFile s with
      | None => Idle
      | Some _ => if truthy_str (error s) then Failed else ImageSelected
      end
  end.

(** The invariant of a mounted component: while it is loading, neither a
    generated image nor an error message is set and exactly one timer runs,
    the one whose handle the ref holds; otherwise no timer runs and the ref
    is empty. *)
Definition sessionInvariant (i : Instance) : Prop :=
  nextTimerId i <> 0 /\
  if isLoading (state i) then
    generatedImage (state i) = None /\ error (state i) = None /\
    exists id e, id <> 0 /\ intervalRef i = Some id /\ timers i = [mkTimer id 3000 e]
  else intervalRef i = None /\ timers i = [].

End ImageGenerator.

(** ** Sample inputs *)

Module Fixtures.
Import GeminiService ImageGenerator.
#[local] Existing Instance exampleEngine.

Definition samplePhoto : File :=
  mkFile "me.jpg" "image/jpeg" (list_ascii_of_string "JFIF").

Definition sampleDocument : File :=
  mkFile "cv.pdf" "application/pdf" (list_ascii_of_string "%PDF-1.7").

(** A session in which [samplePhoto] has been selected. *)
Definition selected : Instance :=
  mkInstance
    (mkState "" (Some samplePhoto) (Some "blob:photo-1") None false None
       firstLoadingMessage false)
    None [] 1 [CreateObjectURL samplePhoto] None.

(** A session that shows a generated image. *)
Definition succeeded : Instance :=
  mkInstance
    (mkState "in a suit" (Some samplePhoto) (Some "blob:photo-1")
       (Some "data:image/png;base64,iVBORw0KGgo=") false None
       firstLoadingMessage false)
    None [] 2 [] None.

(** A user selects [samplePhoto] and clicks the generate button. *)
Definition generatingRun : list Event :=
  [ChooseFile (Some samplePhoto) "blob:photo-1"; ClickGenerate].

(** A model response that carries one PNG image. *)
Definition pngResponse : GenerateContentResponse :=
  responseWith [mkPart (Some (mkBlob "iVBORw0KGgo=" "image/png")) None] [].

(** Ten seconds of a generation, in which the file is read. *)
Definition waitingRun : list Event :=
  [Elapse 2500; ReadSettled (Loaded "data:image/jpeg;base64,SkZJRg==");
   Elapse 3500; Elapse 4000].

(** A whole generation that succeeds: the file is read after three
    seconds, the model answers four seconds later. *)
Definition succeedingRun : list Event :=
  generatingRun
  ++ [Elapse 3000; ReadSettled (Loaded "data:image/jpeg;base64,SkZJRg==");
      Elapse 4000; CallSettled (Fulfilled pngResponse)].

(** A generation whose file read fails after three seconds. *)
Definition unreadableRun : list Event :=
  generatingRun ++ [Elapse 3000; ReadSettled (ReadFailed (VProgressEvent "error"))].

(** A generation whose file has been read and whose model call is pending. *)
Definition awaitingCallRun : list Event :=
  generatingRun ++ [ReadSettled (Loaded "data:image/jpeg;base64,SkZJRg==")].

(** A generation whose model call fails with a quota error. *)
Definition refusedRun : list Event :=
  awaitingCallRun ++ [CallSettled (Rejected (ThrownError "429 quota exceeded"))].

End Fixtures.

(** ** Vocabulary of the further properties *)

Module Coverage.
Import GeminiService ImageGenerator.

(** [s.includes(c)] for one character. *)
Fixpoint mentions (c : ascii) (s : string) : bool :=
  match s with
  | EmptyString => false
  | String x s' => Ascii.eqb x c || mentions c s'
  end.

(** The events a user causes, as opposed to a promise that settles and to
    time that passes. *)
Definition isUserEvent (ev : Event) : bool :=
  match ev with
  | ReadSettled _ | CallSettled _ | Elapse _ => false
  | _ => true
  end.

Definition isClickGenerate (ev : Event) : bool :=
  match ev with
  | ClickGenerate => true
  | _ => false
  end.

(** The calls of a log that are file reads, and those that are model calls. *)
Definition encoderCalls (l : list Effect) : nat := length (filter is_encoder_call l).
Definition networkCalls (l : list Effect) : nat := length (filter is_network_call l).

(** Calls that are neither. *)
Definition housekeeping (e : Effect) : bool :=
  negb (is_encoder_call e || is_network_call e).

(** A handler that makes housekeeping calls only. *)
Definition housekeeps {A : Type} (h : Handler A) : Prop :=
  forall fb, exists es,
    log (inst (snd (runState h fb))) = (log (inst fb) ++ es)%list
    /\ forallb housekeeping es = true.

(** One if the handler waits for the file read, else zero. *)
Definition pendingReads (i : Instance) : nat :=
  match inflight i with
  | Some (AwaitingRead _ _) => 1
  | _ => 0
  end.

(** What holds of every session besides [sessionInvariant]: the handler is
    suspended exactly while the component loads, and then for the file and
    the instruction text that are stored; file and preview are set and
    cleared together; a generated image is a data URI and excludes an error
    message; and every model call follows a file read of its own. *)
Definition coherent (i : Instance) : Prop :=
  match inflight i with
  | Some (AwaitingRead file text) | Some (AwaitingCall file text) =>
      isLoading (state i) = true
      /\ sourceImageFile (state i) = Some file
      /\ description (state i) = text
  | None => isLoading (state i) = false
  end
  /\ (sourceImageFile (state i) = None <-> sourceImagePreview (state i) = None)
  /\ match generatedImage (state i) with
     | Some uri => error (state i) = None /\ exists b, uri = dataURI b
     | None => True
     end
  /\ networkCalls (log i) + pendingReads i <= encoderCalls (log i).

End Coverage.

(** * Properties *)

(** ** Strings *)

Module StringFacts.

Lemma append_assoc (a b c : string) : (a ++ b) ++ c = a ++ (b ++ c).
Proof.
  induction a as [|x a IH]; simpl; [reflexivity|].
  now rewrite IH.
Qed.

Lemma slice_append (a b : string) : slice (String.length a) (a ++ b) = b.
Proof.
  induction a as [|x a IH]; simpl; [now destruct b|exact IH].
Qed.

Lemma truthy_nonempty (s : string) : truthy s = true <-> s <> "".
Proof.
  unfold truthy. destruct (String.eqb_spec s ""); simpl; split; congruence.
Qed.

(** A character foreign to [p] ends every attempt to match [p] across it. *)
Lemma prefix_append_foreign (c : ascii) (q p s : string) :
  (forall n, String.get n p <> Some c) ->
  String.prefix p (s ++ String c q) = String.prefix p s.
Proof.
  revert s. induction p as [|a p IH]; intros s Hc.
  - now destruct s.
  - destruct s as [|b s]; simpl.
    + destruct (ascii_dec a c) as [->|]; [|reflexivity].
      now destruct (Hc 0).
    + destruct (ascii_dec a b); [|reflexivity].
      apply IH. intros n. exact (Hc (S n)).
Qed.

Lemma occurrences_append_foreign (c : ascii) (q p s : string) :
  p <> "" ->
  (forall n, String.get n p <> Some c) ->
  occurrences p (s ++ String c q) = occurrences p s + occurrences p (String c q).
Proof.
  intros Hp Hc. induction s as [|b s IH].
  - simpl (EmptyString ++ _). destruct p as [|a p]; [congruence|reflexivity].
  - change (String b s ++ String c q) with (String b (s ++ String c q)).
    change (occurrences p (String b (s ++ String c q)))
      with ((if String.prefix p (String b (s ++ String c q)) then 1 else 0)
            + occurrences p (s ++ String c q)).
    change (String b (s ++ String c q)) with (String b s ++ String c q).
    rewrite (prefix_append_foreign c q p (String b s) Hc), IH.
    change (occurrences p (String b s))
      with ((if String.prefix p (String b s) then 1 else 0) + occurrences p s).
    rewrite Nat.add_assoc. reflexivity.
Qed.

End StringFacts.

(** ** The adapter, [generateHeadshot] *)

Module GeminiFacts.
Import GeminiService StringFacts.
#[local] Existing Instance exampleEngine.

Lemma responseParts_responseWith {engine : Engine} ps cs :
  responseParts (responseWith ps cs) = inr ps.
Proof. reflexivity. Qed.

Lemma firstInline_skip pre rest :
  Forall noInline pre -> firstInline (pre ++ rest)%list = firstInline rest.
Proof.
  induction 1 as [|q pre Hq _ IH]; simpl; [reflexivity|].
  unfold noInline in Hq. now rewrite Hq.
Qed.

Lemma firstInline_none ps : Forall noInline ps -> firstInline ps = None.
Proof.
  intros H. rewrite <- (app_nil_r ps). now rewrite firstInline_skip.
Qed.

(** Among parts of which one has inline data, there is a first one. *)
Lemma first_inline_part ps :
  Exists hasInline ps ->
  exists pre p post blob,
    ps = (pre ++ p :: post)%list /\ Forall noInline pre /\ inlineData p = Some blob.
Proof.
  induction ps as [|q ps IH]; intros H.
  - inversion H.
  - destruct (inlineData q) as [b|] eqn:Hq.
    + exists [], q, ps, b. repeat split; [constructor|exact Hq].
    + assert (Hps : Exists hasInline ps).
      { inversion H as [? ? Hh|]; subst; [|assumption].
        unfold hasInline in Hh. congruence. }
      destruct (IH Hps) as (pre & p & post & blob & -> & Hpre & Hp).
      exists (q :: pre), p, post, blob. repeat split; [|exact Hp].
      constructor; assumption.
Qed.

(** C1. If the model call returns a response whose parts hold at least one
    part with inline data, [generateHeadshot] makes that one call, logs
    nothing, and fulfils with the data URI of the first such part in order:
    the text "data:", that part's MIME type, ";base64," and that part's data.
    What follows the header is the part's data unchanged, so any decoder
    reads the same bytes from both. *)
Theorem generateHeadshot_first_inline_part {engine : Engine}
    (generateContent : GenerateContentParameters -> Settled GenerateContentResponse)
    (base64Image : option string) (mime description : string)
    (ps : list Part) (cs : list Candidate) :
  generateContent (buildRequest base64Image mime description)
    = Fulfilled (responseWith ps cs) ->
  Exists hasInline ps ->
  exists pre p post blob,
    ps = (pre ++ p :: post)%list /\ Forall noInline pre /\ inlineData p = Some blob /\
    let header := "data:" ++ mimeType blob ++ ";base64," in
    let uri := header ++ data blob in
    generateHeadshot generateContent base64Image mime description
      = ([GenerateContent (buildRequest base64Image mime description)], Fulfilled uri)
    /\ slice (String.length header) uri = data blob
    /\ forall (B : Type) (decode : string -> B),
         decode (slice (String.length header) uri) = decode (data blob).
Proof.
  intros Hcall Hex.
  destruct (first_inline_part ps Hex) as (pre & p & post & blob & Hps & Hpre & Hp).
  exists pre, p, post, blob. repeat split; try assumption.
  - unfold generateHeadshot, generateHeadshot_settle, tryBody.
    rewrite Hcall, responseParts_responseWith, Hps, (firstInline_skip pre _ Hpre).
    simpl. rewrite Hp. unfold dataURI.
    now rewrite !append_assoc.
  - apply slice_append.
  - intros B decode. now rewrite slice_append.
Qed.

(** C1, on a response of a text part, a PNG part and a JPEG part. *)
Lemma generateHeadshot_first_inline_part_witness :
  exists pre p post blob,
    [mkPart None (Some "here"); mkPart (Some (mkBlob "iVBORw0KGgo=" "image/png")) None;
     mkPart (Some (mkBlob "/9j/4AAQ" "image/jpeg")) None] = (pre ++ p :: post)%list
    /\ Forall noInline pre /\ inlineData p = Some blob /\
    let header := "data:" ++ mimeType blob ++ ";base64," in
    let uri := header ++ data blob in
    generateHeadshot
      (fun _ => Fulfilled (responseWith
         [mkPart None (Some "here"); mkPart (Some (mkBlob "iVBORw0KGgo=" "image/png")) None;
          mkPart (Some (mkBlob "/9j/4AAQ" "image/jpeg")) None] []))
      (Some "AAAA") "image/jpeg" ""
      = ([GenerateContent (buildRequest (Some "AAAA") "image/jpeg" "")], Fulfilled uri)
    /\ slice (String.length header) uri = data blob
    /\ forall (B : Type) (decode : string -> B),
         decode (slice (String.length header) uri) = decode (data blob).
Proof.
  apply (generateHeadshot_first_inline_part
           (fun _ => Fulfilled (responseWith
              [mkPart None (Some "here");
               mkPart (Some (mkBlob "iVBORw0KGgo=" "image/png")) None;
               mkPart (Some (mkBlob "/9j/4AAQ" "image/jpeg")) None] []))
           (Some "AAAA") "image/jpeg" ""
           [mkPart None (Some "here");
            mkPart (Some (mkBlob "iVBORw0KGgo=" "image/png")) None;
            mkPart (Some (mkBlob "/9j/4AAQ" "image/jpeg")) None] []).
  - reflexivity.
  - apply Exists_cons_tl, Exists_cons_hd. unfold hasInline. simpl. discriminate.
Defined.

(** The run of the witness, evaluated. *)
Example generateHeadshot_png_run :
  snd (generateHeadshot
         (fun _ => Fulfilled (responseWith
            [mkPart None (Some "here");
             mkPart (Some (mkBlob "iVBORw0KGgo=" "image/png")) None;
             mkPart (Some (mkBlob "/9j/4AAQ" "image/jpeg")) None] []))
         (Some "AAAA") "image/jpeg" "")
  = Fulfilled "data:image/png;base64,iVBORw0KGgo=".
Proof. reflexivity. Qed.

(** C2 as stated fails: the [throw] of line 49 stands inside the [try]
    block, so the [catch] block receives it and wraps its message like any
    other. On a response without parts the rejection carries the prefixed
    message, not the bare one. *)
Lemma empty_response_message_not_verbatim :
  Forall noInline [mkPart None (Some "I cannot edit this photo.")] /\
  snd (generateHeadshot
         (fun _ => Fulfilled (responseWith [mkPart None (Some "I cannot edit this photo.")] []))
         (Some "AAAA") "image/png" "")
  = Rejected (ThrownError
      "Failed to generate headshot: No image was generated. The response from the API was empty.") /\
  snd (generateHeadshot
         (fun _ => Fulfilled (responseWith [mkPart None (Some "I cannot edit this photo.")] []))
         (Some "AAAA") "image/png" "")
  <> Rejected (ThrownError "No image was generated. The response from the API was empty.").
Proof.
  split; [repeat constructor|].
  split; [reflexivity|].
  simpl. discriminate.
Qed.

(** C2, amended. If the model call returns a response whose parts hold no
    part with inline data, [generateHeadshot] logs the empty-response error
    and rejects with an [Error] whose message is the fixed prefix
    "Failed to generate headshot: " followed by the empty-response message;
    that prefixed message is what the calling component displays. *)
Theorem generateHeadshot_empty_response {engine : Engine}
    (generateContent : GenerateContentParameters -> Settled GenerateContentResponse)
    (base64Image : option string) (mime description : string)
    (ps : list Part) (cs : list Candidate) :
  generateContent (buildRequest base64Image mime description)
    = Fulfilled (responseWith ps cs) ->
  Forall noInline ps ->
  generateHeadshot generateContent base64Image mime description
    = ([GenerateContent (buildRequest base64Image mime description);
        ConsoleError consoleLabel
          (ThrownError "No image was generated. The response from the API was empty.")],
       Rejected (ThrownError
         "Failed to generate headshot: No image was generated. The response from the API was empty."))
  /\ forall e,
       snd (generateHeadshot generateContent base64Image mime description) = Rejected e ->
       ImageGenerator.catchMessage e
       = failurePrefix ++ emptyResponseMessage.
Proof.
  intros Hcall Hps.
  assert (Hrun : generateHeadshot generateContent base64Image mime description
    = ([GenerateContent (buildRequest base64Image mime description);
        ConsoleError consoleLabel (ThrownError emptyResponseMessage)],
       Rejected (ThrownError (failurePrefix ++ emptyResponseMessage)))).
  { unfold generateHeadshot, generateHeadshot_settle, tryBody.
    rewrite Hcall, responseParts_responseWith, (firstInline_none ps Hps).
    reflexivity. }
  split; [exact Hrun|].
  intros e He. rewrite Hrun in He. simpl in He.
  injection He as <-. reflexivity.
Qed.

(** C2 amended, on a response that holds a single text part. *)
Lemma generateHeadshot_empty_response_witness :
  generateHeadshot
    (fun _ => Fulfilled (responseWith [mkPart None (Some "I cannot edit this photo.")] []))
    (Some "AAAA") "image/png" "in a suit"
    = ([GenerateContent (buildRequest (Some "AAAA") "image/png" "in a suit");
        ConsoleError consoleLabel
          (ThrownError "No image was generated. The response from the API was empty.")],
       Rejected (ThrownError
         "Failed to generate headshot: No image was generated. The response from the API was empty."))
  /\ forall e,
       snd (generateHeadshot
              (fun _ => Fulfilled (responseWith [mkPart None (Some "I cannot edit this photo.")] []))
              (Some "AAAA") "image/png" "in a suit") = Rejected e ->
       ImageGenerator.catchMessage e
       = failurePrefix ++ emptyResponseMessage.
Proof.
  apply (generateHeadshot_empty_response
           (fun _ => Fulfilled (responseWith [mkPart None (Some "I cannot edit this photo.")] []))
           (Some "AAAA") "image/png" "in a suit"
           [mkPart None (Some "I cannot edit this photo.")] []).
  - reflexivity.
  - repeat constructor.
Defined.

(** C3. If the model call throws (or its promise rejects), the adapter logs
    what was thrown and rejects with a new [Error]: for an [Error], the
    fixed prefix followed by its message; for any other value, the one fixed
    generic message. *)
Theorem generateHeadshot_call_throws {engine : Engine}
    (generateContent : GenerateContentParameters -> Settled GenerateContentResponse)
    (base64Image : option string) (mime description : string) :
  (forall message,
     generateContent (buildRequest base64Image mime description)
       = Rejected (ThrownError message) ->
     generateHeadshot generateContent base64Image mime description
     = ([GenerateContent (buildRequest base64Image mime description);
         ConsoleError consoleLabel (ThrownError message)],
        Rejected (ThrownError ("Failed to generate headshot: " ++ message))))
  /\
  (forall v,
     generateContent (buildRequest base64Image mime description)
       = Rejected (ThrownOther v) ->
     generateHeadshot generateContent base64Image mime description
     = ([GenerateContent (buildRequest base64Image mime description);
         ConsoleError consoleLabel (ThrownOther v)],
        Rejected (ThrownError "An unknown error occurred while generating the headshot."))).
Proof.
  split; intros x Hcall; unfold generateHeadshot, generateHeadshot_settle, tryBody;
    rewrite Hcall; reflexivity.
Qed.

(** C3, for a call that fails with a quota error and for a call that
    rejects with a string. *)
Lemma generateHeadshot_call_throws_witness :
  generateHeadshot (fun _ => Rejected (ThrownError "429 quota exceeded"))
    (Some "AAAA") "image/png" ""
  = ([GenerateContent (buildRequest (Some "AAAA") "image/png" "");
      ConsoleError consoleLabel (ThrownError "429 quota exceeded")],
     Rejected (ThrownError ("Failed to generate headshot: " ++ "429 quota exceeded")))
  /\
  generateHeadshot (fun _ => Rejected (ThrownOther (VString "offline")))
    (Some "AAAA") "image/png" ""
  = ([GenerateContent (buildRequest (Some "AAAA") "image/png" "");
      ConsoleError consoleLabel (ThrownOther (VString "offline"))],
     Rejected (ThrownError "An unknown error occurred while generating the headshot.")).
Proof.
  split.
  - apply (proj1 (generateHeadshot_call_throws
                    (fun _ => Rejected (ThrownError "429 quota exceeded"))
                    (Some "AAAA") "image/png" "")).
    reflexivity.
  - apply (proj2 (generateHeadshot_call_throws
                    (fun _ => Rejected (ThrownOther (VString "offline")))
                    (Some "AAAA") "image/png" "")).
    reflexivity.
Defined.

(** The two cases of C3, evaluated. *)
Example generateHeadshot_throws_error_run :
  snd (generateHeadshot (fun _ => Rejected (ThrownError "429 quota exceeded"))
         (Some "AAAA") "image/png" "")
  = Rejected (ThrownError "Failed to generate headshot: 429 quota exceeded").
Proof. reflexivity. Qed.

Example generateHeadshot_throws_other_run :
  snd (generateHeadshot (fun _ => Rejected (ThrownOther (VString "offline")))
         (Some "AAAA") "image/png" "")
  = Rejected (ThrownError "An unknown error occurred while generating the headshot.").
Proof. reflexivity. Qed.

(** A response without candidates is no empty response: reading its first
    candidate raises a [TypeError], which is wrapped as a call failure. *)
Example generateHeadshot_no_candidates_run :
  snd (generateHeadshot (fun _ => Fulfilled (mkResponse None)) (Some "AAAA") "image/png" "")
  = Rejected (ThrownError "Failed to generate headshot: type error").
Proof. reflexivity. Qed.

End GeminiFacts.

(** ** The prompt template, [fullPrompt] *)

Module PromptFacts.
Import GeminiService StringFacts.

Lemma fullPrompt_nonempty (description : string) :
  description <> "" ->
  fullPrompt description
  = promptHead ++ instructionClause description ++ promptTail.
Proof.
  intros Hd. unfold fullPrompt.
  now rewrite (proj2 (truthy_nonempty description) Hd).
Qed.

(** The double quote is no character of the fixed phrase. *)
Lemma phrase_has_no_quote (n : nat) :
  String.get n instructionPhrase <> Some (ascii_of_nat 34).
Proof.
  do 37 (destruct n as [|n]; [simpl; discriminate|]).
  simpl. discriminate.
Qed.

(** Up to the opening quote of the clause, the phrase starts exactly once. *)
Lemma occurrences_head_clause (rest : string) :
  occurrences instructionPhrase
    (promptHead ++ instructionPhrase ++ " " ++ dquote ++ rest)
  = 1 + occurrences instructionPhrase rest.
Proof. vm_compute. reflexivity. Qed.

(** From the closing quote on, the phrase does not start. *)
Lemma occurrences_closing (description : string) :
  occurrences instructionPhrase (description ++ dquote ++ promptTail)
  = occurrences instructionPhrase description.
Proof.
  unfold dquote.
  change (String (ascii_of_nat 34) EmptyString ++ promptTail)
    with (String (ascii_of_nat 34) promptTail).
  rewrite (occurrences_append_foreign (ascii_of_nat 34) promptTail
             instructionPhrase description);
    [|discriminate|exact phrase_has_no_quote].
  change (occurrences instructionPhrase (String (ascii_of_nat 34) promptTail)) with 0.
  apply Nat.add_0_r.
Qed.

(** C4. The prompt depends on the instruction text alone: equal texts give
    equal prompts, whatever image and MIME type the request carries. For the
    empty text the prompt is the fixed template and holds no instruction
    clause. For a non-empty text the prompt is the fixed template with one
    clause put in before its last line break: the fixed phrase
    "Incorporate these user instructions:", a blank, and the text verbatim
    between double quotes; the fixed phrase then occurs in the prompt exactly
    once more often than in the text itself. *)
Theorem fullPrompt_instruction_clause :
  (forall d1 d2 : string, d1 = d2 -> fullPrompt d1 = fullPrompt d2)
  /\ (forall b1 m1 b2 m2 d,
        req_text (buildRequest b1 m1 d) = req_text (buildRequest b2 m2 d))
  /\ (fullPrompt "" = promptHead ++ promptTail
      /\ includes (fullPrompt "") "Incorporate these user instructions:" = false
      /\ occurrences "Incorporate these user instructions:" (fullPrompt "") = 0)
  /\ (forall d : string, d <> "" ->
        fullPrompt d
        = promptHead
          ++ ("Incorporate these user instructions:" ++ " " ++ dquote ++ d ++ dquote)
          ++ promptTail
        /\ occurrences "Incorporate these user instructions:" (fullPrompt d)
           = 1 + occurrences "Incorporate these user instructions:" d).
Proof.
  split; [intros d1 d2 ->; reflexivity|].
  split; [reflexivity|].
  split; [repeat split; vm_compute; reflexivity|].
  intros d Hd. rewrite (fullPrompt_nonempty d Hd).
  split; [reflexivity|].
  unfold instructionClause.
  rewrite !append_assoc.
  change (instructionPhrase ++ " " ++ dquote ++ d ++ dquote ++ promptTail)
    with (instructionPhrase ++ " " ++ dquote ++ (d ++ dquote ++ promptTail)).
  rewrite occurrences_head_clause.
  change (occurrences "Incorporate these user instructions:" (d ++ dquote ++ promptTail))
    with (occurrences instructionPhrase (d ++ dquote ++ promptTail)).
  now rewrite occurrences_closing.
Qed.

(** C4, for the instruction text "Wear a black suit". *)
Lemma fullPrompt_instruction_clause_witness :
  "Wear a black suit" <> "" /\
  fullPrompt "Wear a black suit"
  = promptHead
    ++ ("Incorporate these user instructions:" ++ " " ++ dquote
        ++ "Wear a black suit" ++ dquote)
    ++ promptTail
  /\ occurrences "Incorporate these user instructions:" (fullPrompt "Wear a black suit")
     = 1 + occurrences "Incorporate these user instructions:" "Wear a black suit".
Proof.
  split; [discriminate|].
  apply (proj2 (proj2 (proj2 fullPrompt_instruction_clause)) "Wear a black suit").
  discriminate.
Defined.

(** An instruction text that quotes the fixed phrase adds its own
    occurrence to the one of the clause. *)
Example fullPrompt_quoting_text :
  occurrences instructionPhrase
    (fullPrompt "Incorporate these user instructions: none") = 2.
Proof. vm_compute. reflexivity. Qed.

End PromptFacts.

(** ** The component *)

Module ComponentFacts.
Import GeminiService ImageGenerator StringFacts.
Local Open Scope list_scope.
#[local] Existing Instance exampleEngine.

(** *** Rendering *)

Lemma option_eqb_refl (a : option string) : option_eqb a a = true.
Proof. destruct a; simpl; [apply String.eqb_refl|reflexivity]. Qed.

Lemma ret_keeps : keeps (ret tt).
Proof. intros fb. now repeat split. Qed.

Lemma bind_keeps (c k : Handler unit) : keeps c -> keeps k -> keeps (c ;; k).
Proof.
  intros Hc Hk fb.
  change (runState (c ;; k) fb)
    with (let (_, fb') := runState c fb in runState k fb').
  destruct (Hc fb) as (Hs & Hq & Hi).
  destruct (runState c fb) as [[] fb']. simpl in Hs, Hq, Hi.
  destruct (Hk fb') as (Hs' & Hq' & Hi'). repeat split; congruence.
Qed.

Lemma loadingEffectCleanup_keeps : keeps loadingEffectCleanup.
Proof.
  intros fb. unfold loadingEffectCleanup. cbn.
  destruct (truthy_num (intervalRef (inst fb))); now repeat split.
Qed.

Lemma loadingEffect_keeps (b : bool) : keeps (loadingEffect b).
Proof.
  intros fb. unfold loadingEffect. destruct b; cbn.
  - now repeat split.
  - destruct (truthy_num (intervalRef (inst fb))); now repeat split.
Qed.

Lemma previewEffectCleanup_keeps (p : option string) : keeps (previewEffectCleanup p).
Proof.
  intros fb. unfold previewEffectCleanup.
  destruct (truthy_str p); [destruct p|]; now repeat split.
Qed.

Lemma runEffects_keeps (old new : State) : keeps (runEffects old new).
Proof.
  unfold runEffects.
  repeat apply bind_keeps;
    match goal with |- keeps (if ?b then _ else _) => destruct b end;
    auto using ret_keeps, loadingEffectCleanup_keeps, loadingEffect_keeps,
      previewEffectCleanup_keeps.
Qed.

(** A render applies the queued setter calls in order; the effects that
    follow it touch no cell of the state. *)
Lemma commit_state (fb : Fiber) :
  state (inst (snd (runState commit fb)))
  = fold_left applyUpdate (queue fb) (state (inst fb)).
Proof.
  unfold commit.
  set (old := state (inst fb)).
  set (new := fold_left applyUpdate (queue fb) old).
  change (runState _ fb) with
    (runState (runEffects old new)
       (mkFiber (mkInstance new (intervalRef (inst fb)) (timers (inst fb))
                   (nextTimerId (inst fb)) (log (inst fb)) (inflight (inst fb))) [])).
  now rewrite (proj1 (runEffects_keeps old new _)).
Qed.

(** A render after which no dependency has changed runs no effect. *)
Lemma commit_quiet (fb : Fiber) :
  let new := fold_left applyUpdate (queue fb) (state (inst fb)) in
  isLoading new = isLoading (state (inst fb)) ->
  sourceImagePreview new = sourceImagePreview (state (inst fb)) ->
  inst (snd (runState commit fb))
  = mkInstance new (intervalRef (inst fb)) (timers (inst fb))
      (nextTimerId (inst fb)) (log (inst fb)) (inflight (inst fb)).
Proof.
  intros new Hl Hp. unfold commit.
  change (runState _ fb) with
    (runState (runEffects (state (inst fb)) new)
       (mkFiber (mkInstance new (intervalRef (inst fb)) (timers (inst fb))
                   (nextTimerId (inst fb)) (log (inst fb)) (inflight (inst fb))) [])).
  unfold runEffects. rewrite Hl, Hp, Bool.eqb_reflx, option_eqb_refl.
  reflexivity.
Qed.

Lemma invoke_ranOn (h : Handler unit) (i : Instance) :
  invoke h i = inst (snd (runState commit (ranOn h i))).
Proof.
  unfold invoke, execState, ranOn.
  change (runState (h ;; commit) (mkFiber i []))
    with (let (_, fb') := runState h (mkFiber i []) in runState commit fb').
  now destruct (runState h (mkFiber i [])) as [[] fb'].
Qed.

(** A render leaves the pending handler as it is. *)
Lemma commit_inflight (fb : Fiber) :
  inflight (inst (snd (runState commit fb))) = inflight (inst fb).
Proof.
  unfold commit.
  set (old := state (inst fb)).
  set (new := fold_left applyUpdate (queue fb) old).
  change (runState _ fb) with
    (runState (runEffects old new)
       (mkFiber (mkInstance new (intervalRef (inst fb)) (timers (inst fb))
                   (nextTimerId (inst fb)) (log (inst fb)) (inflight (inst fb))) [])).
  now rewrite (proj2 (proj2 (runEffects_keeps old new _))).
Qed.

Lemma invoke_inflight (h : Handler unit) (i : Instance) :
  inflight (invoke h i) = inflight (inst (ranOn h i)).
Proof. rewrite invoke_ranOn. apply commit_inflight. Qed.

Lemma invoke_state (h : Handler unit) (i : Instance) :
  state (invoke h i)
  = fold_left applyUpdate (queue (ranOn h i)) (state (inst (ranOn h i))).
Proof. rewrite invoke_ranOn. apply commit_state. Qed.

(** Running a handler on an instance given by its fields. *)
Ltac run_handler :=
  unfold invoke, execState; cbn;
  rewrite ?Bool.eqb_reflx, ?option_eqb_refl; cbn.

(** C5. For a file whose MIME type does not start with "image/",
    [handleFileSelect] sets the error message
    "Please upload a valid image file (PNG, JPG, WEBP)." and changes nothing
    else: every other cell of the state, among them the stored file and the
    preview, the ref, the timers and the pending handler are as before, no
    object URL is created or revoked, the same view is rendered (on the
    form, with the message displayed), and a session in phase Idle is still
    in phase Idle. *)
Theorem handleFileSelect_rejects_non_image
    (i : Instance) (f : File) (minted : string) :
  startsWith (file_type f) "image/" = false ->
  let i' := invoke (handleFileSelect minted (Some f)) i in
  i' = mkInstance
         (mkState (description (state i)) (sourceImageFile (state i))
            (sourceImagePreview (state i)) (generatedImage (state i))
            (isLoading (state i))
            (Some "Please upload a valid image file (PNG, JPG, WEBP).")
            (loadingMessage (state i)) (isDragging (state i)))
         (intervalRef i) (timers i) (nextTimerId i) (log i) (inflight i)
  /\ error (state i') = Some "Please upload a valid image file (PNG, JPG, WEBP)."
  /\ sourceImageFile (state i') = sourceImageFile (state i)
  /\ sourceImagePreview (state i') = sourceImagePreview (state i)
  /\ log i' = log i
  /\ view (state i') = view (state i)
  /\ (view (state i) = FormView ->
      shownError (state i')
      = Some "Please upload a valid image file (PNG, JPG, WEBP).")
  /\ (phase (state i) = Idle -> phase (state i') = Idle).
Proof.
  intros Hty i'.
  assert (Hi : i' = mkInstance
         (mkState (description (state i)) (sourceImageFile (state i))
            (sourceImagePreview (state i)) (generatedImage (state i))
            (isLoading (state i)) (Some invalidFileMessage)
            (loadingMessage (state i)) (isDragging (state i)))
         (intervalRef i) (timers i) (nextTimerId i) (log i) (inflight i)).
  { subst i'. destruct i as [[d sf p g l e m dr] ref ts nid lg infl].
    unfold handleFileSelect. run_handler. rewrite Hty. run_handler. reflexivity. }
  split; [exact Hi|].
  rewrite Hi. repeat split.
  - unfold shownError, view. simpl.
    destruct (isLoading (state i)); [discriminate|].
    now destruct (truthy_str (generatedImage (state i))).
  - unfold phase, view. simpl.
    destruct (isLoading (state i)); [discriminate|].
    destruct (truthy_str (generatedImage (state i))); [discriminate|].
    destruct (sourceImageFile (state i)); [|reflexivity].
    destruct (truthy_str (error (state i))); discriminate.
Qed.

(** C5, for a PDF dropped on a fresh session. *)
Lemma handleFileSelect_rejects_non_image_witness :
  startsWith (file_type Fixtures.sampleDocument) "image/" = false
  /\ invoke (handleFileSelect "blob:doc-1" (Some Fixtures.sampleDocument)) mount
     = mkInstance
         (mkState "" None None None false
            (Some "Please upload a valid image file (PNG, JPG, WEBP).")
            firstLoadingMessage false)
         None [] 1 [] None.
Proof.
  split; [reflexivity|].
  destruct (handleFileSelect_rejects_non_image mount Fixtures.sampleDocument "blob:doc-1")
    as (H & _); [reflexivity|exact H].
Defined.

(** C6. Invoked while no source image is stored, [handleGenerate] sets the
    error message "Please upload an image to start." and nothing else: the
    rest of the state is as before, no call leaves the component (neither
    the file read nor the model call), no continuation is left pending that
    could make one later, the message is displayed on the form, and the
    session is in the phase it was in. *)
Theorem handleGenerate_without_image (i : Instance) :
  sourceImageFile (state i) = None ->
  let i' := invoke handleGenerate i in
  i' = mkInstance
         (mkState (description (state i)) None
            (sourceImagePreview (state i)) (generatedImage (state i))
            (isLoading (state i)) (Some "Please upload an image to start.")
            (loadingMessage (state i)) (isDragging (state i)))
         (intervalRef i) (timers i) (nextTimerId i) (log i) (inflight i)
  /\ error (state i') = Some "Please upload an image to start."
  /\ log i' = log i
  /\ filter is_encoder_call (log i') = filter is_encoder_call (log i)
  /\ filter is_network_call (log i') = filter is_network_call (log i)
  /\ inflight i' = inflight i
  /\ (view (state i) = FormView ->
      shownError (state i') = Some "Please upload an image to start.")
  /\ phase (state i') = phase (state i).
Proof.
  intros Hsrc i'.
  assert (Hi : i' = mkInstance
         (mkState (description (state i)) None
            (sourceImagePreview (state i)) (generatedImage (state i))
            (isLoading (state i)) (Some noImageMessage)
            (loadingMessage (state i)) (isDragging (state i)))
         (intervalRef i) (timers i) (nextTimerId i) (log i) (inflight i)).
  { subst i'. destruct i as [[d sf p g l e m dr] ref ts nid lg infl].
    simpl in Hsrc. subst sf. unfold handleGenerate. run_handler. reflexivity. }
  split; [exact Hi|].
  rewrite Hi. repeat split.
  - unfold shownError, view. simpl.
    destruct (isLoading (state i)); [discriminate|].
    now destruct (truthy_str (generatedImage (state i))).
  - unfold phase, view. simpl. rewrite Hsrc. reflexivity.
Qed.

(** C6, on a fresh session. *)
Lemma handleGenerate_without_image_witness :
  sourceImageFile (state mount) = None
  /\ invoke handleGenerate mount
     = mkInstance
         (mkState "" None None None false (Some "Please upload an image to start.")
            firstLoadingMessage false)
         None [] 1 [] None.
Proof.
  split; [reflexivity|].
  destruct (handleGenerate_without_image mount) as (H & _); [reflexivity|exact H].
Defined.

(** C7. [handleStartOver] empties the session, whatever state it is taken
    from: the instruction text is empty, the generated image, the error
    message, the source file and its preview are absent, and the loading
    flag is cleared, which is phase Idle. The status message and the drag
    flag are the two cells it leaves as they are. *)
Theorem handleStartOver_resets (i : Instance) :
  let s' := state (invoke handleStartOver i) in
  s' = mkState "" None None None false None
         (loadingMessage (state i)) (isDragging (state i))
  /\ description s' = ""
  /\ sourceImageFile s' = None
  /\ sourceImagePreview s' = None
  /\ generatedImage s' = None
  /\ error s' = None
  /\ isLoading s' = false
  /\ phase s' = Idle.
Proof.
  intros s'.
  assert (Hs : s' = mkState "" None None None false None
                      (loadingMessage (state i)) (isDragging (state i))).
  { subst s'. rewrite invoke_state.
    unfold handleStartOver, clearSourceImage, ranOn. cbn.
    destruct (fileInputMounted (state i)); reflexivity. }
  rewrite Hs. repeat split.
Qed.

(** Start over from a session that shows a generated image. *)
Example handleStartOver_run :
  invoke handleStartOver Fixtures.succeeded
  = mkInstance (mkState "" None None None false None firstLoadingMessage false)
      None [] 2 [RevokeObjectURL "blob:photo-1"] None.
Proof. reflexivity. Qed.

(** *** Renders and the interval timer *)

Lemma previewEffectCleanup_run (p : option string) (fb : Fiber) :
  exists es,
    snd (runState (previewEffectCleanup p) fb)
    = mkFiber (mkInstance (state (inst fb)) (intervalRef (inst fb)) (timers (inst fb))
                 (nextTimerId (inst fb)) (log (inst fb) ++ es) (inflight (inst fb)))
        (queue fb).
Proof.
  unfold previewEffectCleanup.
  destruct (truthy_str p); [destruct p as [url|]|].
  - exists [RevokeObjectURL url]. reflexivity.
  - exists []. rewrite app_nil_r. now destruct fb as [[] ?].
  - exists []. rewrite app_nil_r. now destruct fb as [[] ?].
Qed.

(** The fiber a render starts its effects on. *)
Lemma commit_unfold (fb : Fiber) :
  runState commit fb
  = runState (runEffects (state (inst fb))
                (fold_left applyUpdate (queue fb) (state (inst fb))))
      (mkFiber (mkInstance (fold_left applyUpdate (queue fb) (state (inst fb)))
                  (intervalRef (inst fb)) (timers (inst fb))
                  (nextTimerId (inst fb)) (log (inst fb)) (inflight (inst fb))) []).
Proof. reflexivity. Qed.

(** A render that leaves [isLoading] as it was touches no timer. *)
Lemma commit_same_loading (fb : Fiber) :
  let new := fold_left applyUpdate (queue fb) (state (inst fb)) in
  isLoading new = isLoading (state (inst fb)) ->
  exists es,
    inst (snd (runState commit fb))
    = mkInstance new (intervalRef (inst fb)) (timers (inst fb))
        (nextTimerId (inst fb)) (log (inst fb) ++ es) (inflight (inst fb)).
Proof.
  intros new Hl. rewrite commit_unfold. fold new.
  unfold runEffects. rewrite Hl, Bool.eqb_reflx. cbn [negb].
  destruct (negb (option_eqb _ _)).
  - cbn.
    destruct (previewEffectCleanup_run (sourceImagePreview (state (inst fb)))
                (mkFiber (mkInstance new (intervalRef (inst fb)) (timers (inst fb))
                   (nextTimerId (inst fb)) (log (inst fb)) (inflight (inst fb))) []))
      as [es Hes].
    destruct (runState (previewEffectCleanup _) _) as [[] fb1].
    simpl in Hes. subst fb1. exists es. reflexivity.
  - exists []. rewrite app_nil_r. reflexivity.
Qed.

(** A render that turns [isLoading] on starts the interval timer. *)
Lemma commit_start_loading (fb : Fiber) :
  let new := fold_left applyUpdate (queue fb) (state (inst fb)) in
  isLoading (state (inst fb)) = false ->
  isLoading new = true ->
  intervalRef (inst fb) = None ->
  exists es,
    inst (snd (runState commit fb))
    = mkInstance new (Some (nextTimerId (inst fb)))
        (timers (inst fb) ++ [mkTimer (nextTimerId (inst fb)) 3000 0])
        (S (nextTimerId (inst fb)))
        (log (inst fb) ++ es ++ [SetInterval (nextTimerId (inst fb)) 3000])
        (inflight (inst fb)).
Proof.
  intros new Hold Hnew Href. rewrite commit_unfold. fold new.
  unfold runEffects. rewrite Hold, Hnew. cbn [Bool.eqb negb].
  unfold loadingEffectCleanup. cbn. rewrite Href. cbn.
  destruct (negb (option_eqb _ _)).
  - destruct (previewEffectCleanup_run (sourceImagePreview (state (inst fb)))
                (mkFiber (mkInstance new None (timers (inst fb))
                   (nextTimerId (inst fb)) (log (inst fb)) (inflight (inst fb))) []))
      as [es Hes].
    destruct (runState (previewEffectCleanup _) _) as [[] fb1].
    simpl in Hes. subst fb1. exists es. cbn. now rewrite <- app_assoc.
  - exists []. reflexivity.
Qed.

(** A render that turns [isLoading] off clears the interval timer. *)
Lemma commit_stop_loading (fb : Fiber) (id delay e : nat) :
  let new := fold_left applyUpdate (queue fb) (state (inst fb)) in
  isLoading (state (inst fb)) = true ->
  isLoading new = false ->
  id <> 0 ->
  intervalRef (inst fb) = Some id ->
  timers (inst fb) = [mkTimer id delay e] ->
  exists es,
    inst (snd (runState commit fb))
    = mkInstance new None [] (nextTimerId (inst fb))
        (log (inst fb) ++ es) (inflight (inst fb)).
Proof.
  intros new Hold Hnew Hid Href Hts. rewrite commit_unfold. fold new.
  unfold runEffects. rewrite Hold, Hnew. cbn [Bool.eqb negb].
  unfold loadingEffectCleanup, loadingEffect. cbn. rewrite Href, Hts.
  destruct id as [|id]; [congruence|]. cbn. rewrite Nat.eqb_refl. cbn.
  destruct (negb (option_eqb _ _)).
  - destruct (previewEffectCleanup_run (sourceImagePreview (state (inst fb)))
                (mkFiber (mkInstance new (Some (S id)) []
                   (nextTimerId (inst fb)) (log (inst fb) ++ [ClearInterval (S id)])
                   (inflight (inst fb))) []))
      as [es Hes].
    destruct (runState (previewEffectCleanup _) _) as [[] fb1].
    simpl in Hes. subst fb1. cbn.
    exists ([ClearInterval (S id)] ++ es ++ [ClearInterval (S id)]).
    now rewrite <- !app_assoc.
  - cbn. exists [ClearInterval (S id); ClearInterval (S id)].
    now rewrite <- app_assoc.
Qed.

(** *** The invariant *)

(** No handler touches the committed state, the ref or the timers on its
    own: it queues setter calls, makes calls and parks its continuation. *)
Lemma handlerOf_ranOn {engine : Engine} (i : Instance) (ev : Event) :
  let fb := ranOn (handlerOf i ev) i in
  state (inst fb) = state i /\ intervalRef (inst fb) = intervalRef i
  /\ timers (inst fb) = timers i /\ nextTimerId (inst fb) = nextTimerId i.
Proof.
  unfold ranOn.
  destruct ev as [file minted| | |file minted| |v| | | |o|o|ms]; cbn.
  - destruct file as [f|]; cbn; [|now repeat split].
    destruct (startsWith (file_type f) "image/"); cbn; [|now repeat split].
    destruct (truthy_str (sourceImagePreview (state i))); cbn; [|now repeat split].
    destruct (sourceImagePreview (state i)); cbn; now repeat split.
  - now repeat split.
  - now repeat split.
  - destruct file as [f|]; cbn; [|now repeat split].
    destruct (startsWith (file_type f) "image/"); cbn; [|now repeat split].
    destruct (truthy_str (sourceImagePreview (state i))); cbn; [|now repeat split].
    destruct (sourceImagePreview (state i)); cbn; now repeat split.
  - destruct (fileInputMounted (state i)); cbn; now repeat split.
  - now repeat split.
  - destruct (sourceImageFile (state i)); cbn; now repeat split.
  - destruct (truthy_str (generatedImage (state i))); cbn; [|now repeat split].
    destruct (generatedImage (state i)); cbn; now repeat split.
  - destruct (fileInputMounted (state i)); cbn; now repeat split.
  - destruct (inflight i) as [[file description|file description]|]; cbn;
      try now repeat split.
    unfold handleGenerate_afterRead.
    destruct (fileToBase64_settle o); cbn; now repeat split.
  - destruct (inflight i) as [[file description|file description]|]; cbn;
      try now repeat split.
    unfold handleGenerate_afterCall.
    destruct (generateHeadshot_settle o) as [effects [imageUrl|err]]; cbn;
      now repeat split.
  - now repeat split.
Qed.

(** Whatever an enabled event queues, a state that loads after it holds
    neither a generated image nor an error message. *)
Lemma handlerOf_loading {engine : Engine} (i : Instance) (ev : Event) :
  sessionInvariant i ->
  enabled i ev = true ->
  let new := fold_left applyUpdate (queue (ranOn (handlerOf i ev) i)) (state i) in
  isLoading new = true -> generatedImage new = None /\ error new = None.
Proof.
  intros [_ Hinv] Hen. unfold ranOn.
  destruct i as [[d sf p g l e m dr] ref ts nid lg infl].
  unfold enabled, fileInputMounted, generateDisabled, view in Hen.
  cbn in Hinv, Hen.
  destruct ev as [file minted| | |file minted| |v| | | |o|o|ms]; cbn.
  - destruct l; [discriminate|].
    destruct file as [f|]; cbn; [|discriminate].
    destruct (startsWith (file_type f) "image/"); cbn; [|discriminate].
    destruct (truthy_str p); cbn; [|discriminate].
    destruct p; cbn; discriminate.
  - destruct l; [discriminate|]. cbn. discriminate.
  - destruct l; [discriminate|]. cbn. discriminate.
  - destruct l; [discriminate|].
    destruct file as [f|]; cbn; [|discriminate].
    destruct (startsWith (file_type f) "image/"); cbn; [|discriminate].
    destruct (truthy_str p); cbn; [|discriminate].
    destruct p; cbn; discriminate.
  - destruct l; [discriminate|].
    destruct (fileInputMounted _); cbn; discriminate.
  - destruct l; [discriminate|]. cbn. discriminate.
  - destruct sf; cbn; [now split|].
    destruct l; [discriminate|]. discriminate.
  - destruct l; [discriminate|].
    destruct (truthy_str g); cbn; [|discriminate].
    destruct g; cbn; discriminate.
  - destruct (fileInputMounted _); cbn; discriminate.
  - destruct infl as [[file description|file description]|]; try discriminate.
    unfold handleGenerate_afterRead.
    destruct (fileToBase64_settle o); cbn; [|discriminate].
    intros Hl. rewrite Hl in Hinv. now destruct Hinv as (? & ? & _).
  - destruct infl as [[file description|file description]|]; try discriminate.
    unfold handleGenerate_afterCall.
    destruct (generateHeadshot_settle o) as [effects [imageUrl|err]]; cbn;
      discriminate.
  - intros Hl. rewrite Hl in Hinv. now destruct Hinv as (? & ? & _).
Qed.

(** An enabled handler keeps the invariant. *)
Lemma invoke_invariant {engine : Engine} (i : Instance) (ev : Event) :
  sessionInvariant i ->
  enabled i ev = true ->
  sessionInvariant (invoke (handlerOf i ev) i).
Proof.
  intros Hinv Hen.
  pose proof (handlerOf_loading i ev Hinv Hen) as Hnew.
  destruct (handlerOf_ranOn i ev) as (Hs & Hr & Ht & Hn).
  rewrite invoke_ranOn.
  set (fb := ranOn (handlerOf i ev) i) in *.
  cbn zeta in Hnew. rewrite <- Hs in Hnew.
  set (new := fold_left applyUpdate (queue fb) (state (inst fb))) in *.
  destruct Hinv as [Hnid Hinv].
  destruct (isLoading (state i)) eqn:Hold; destruct (isLoading new) eqn:Hl.
  - destruct (commit_same_loading fb) as [es ->]; [fold new; congruence|].
    fold new. split; [simpl; congruence|]. simpl. rewrite Hl.
    destruct (Hnew eq_refl) as [Hg He].
    destruct Hinv as (_ & _ & id & e & Hid & Href & Hts).
    repeat split; try assumption. exists id, e. repeat split; congruence.
  - destruct Hinv as (_ & _ & id & e & Hid & Href & Hts).
    destruct (commit_stop_loading fb id 3000 e) as [es ->];
      try assumption; try congruence.
    fold new. split; [simpl; congruence|]. simpl. rewrite Hl. now split.
  - destruct Hinv as [Href Hts].
    destruct (commit_start_loading fb) as [es ->];
      try assumption; try congruence.
    fold new. split; [simpl; congruence|]. simpl. rewrite Hl.
    destruct (Hnew eq_refl) as [Hg He].
    repeat split; try assumption.
    exists (nextTimerId (inst fb)), 0. rewrite Ht, Hts.
    repeat split; congruence.
  - destruct (commit_same_loading fb) as [es ->]; [fold new; congruence|].
    fold new. split; [simpl; congruence|]. simpl. rewrite Hl.
    destruct Hinv. split; congruence.
Qed.

(** *** The rotation of the status message *)

(** One run of the interval callback replaces the status message by the
    next one and changes nothing else. *)
Lemma invoke_intervalCallback (i : Instance) :
  invoke intervalCallback i
  = mkInstance
      (applyUpdate (state i) (UpdateLoadingMessage nextLoadingMessage))
      (intervalRef i) (timers i) (nextTimerId i) (log i) (inflight i).
Proof.
  rewrite invoke_ranOn. unfold ranOn, intervalCallback. cbn.
  apply (commit_quiet
           (mkFiber i [UpdateLoadingMessage nextLoadingMessage])); reflexivity.
Qed.

Lemma fire_spec (n : nat) (i : Instance) :
  fire n i
  = mkInstance
      (applyUpdate (state i)
         (UpdateLoadingMessage (fun m => Nat.iter n nextLoadingMessage m)))
      (intervalRef i) (timers i) (nextTimerId i) (log i) (inflight i).
Proof.
  revert i. induction n as [|n IH]; intros i.
  - now destruct i as [[] ? ? ? ? ?].
  - cbn [fire]. rewrite IH, invoke_intervalCallback.
    cbn -[nextLoadingMessage Nat.iter].
    now rewrite Nat.iter_swap.
Qed.

(** Time that passes moves the status message and ages the timers. *)
Lemma elapse_spec (ms : nat) (i : Instance) :
  elapse ms i
  = mkInstance
      (applyUpdate (state i)
         (UpdateLoadingMessage
            (fun m => Nat.iter (list_sum (map (fireCount ms) (timers i)))
                        nextLoadingMessage m)))
      (intervalRef i) (map (ageTimer ms) (timers i)) (nextTimerId i)
      (log i) (inflight i).
Proof. unfold elapse. now rewrite fire_spec. Qed.

Lemma elapse_invariant (ms : nat) (i : Instance) :
  sessionInvariant i -> sessionInvariant (elapse ms i).
Proof.
  intros [Hnid Hinv]. rewrite elapse_spec.
  split; [exact Hnid|]. cbn.
  destruct (isLoading (state i)).
  - destruct Hinv as (Hg & He & id & e & Hid & Href & Hts).
    repeat split; try assumption.
    exists id, ((e + ms) mod 3000). rewrite Hts. now repeat split.
  - destruct Hinv as [Href Hts]. rewrite Hts. now split.
Qed.

Lemma step_invariant {engine : Engine} (i : Instance) (ev : Event) :
  sessionInvariant i -> sessionInvariant (step i ev).
Proof.
  intros Hinv. unfold step.
  destruct (enabled i ev) eqn:Hen; [|exact Hinv].
  destruct ev; try (apply (invoke_invariant i _ Hinv Hen)).
  apply elapse_invariant, Hinv.
Qed.

Lemma run_invariant {engine : Engine} (evs : list Event) (i : Instance) :
  sessionInvariant i -> sessionInvariant (run i evs).
Proof.
  revert i. induction evs as [|ev evs IH]; intros i Hinv; [exact Hinv|].
  apply IH, step_invariant, Hinv.
Qed.

Lemma mount_invariant : sessionInvariant mount.
Proof. split; [discriminate|]. now split. Qed.

Lemma reachable_invariant {engine : Engine} (i : Instance) :
  reachable i -> sessionInvariant i.
Proof. intros [evs ->]. apply run_invariant, mount_invariant. Qed.

(** *** Generating *)

(** The first run of [handleGenerate] on a session with a source image. *)
Lemma handleGenerate_start (i : Instance) (file : File) :
  sourceImageFile (state i) = Some file ->
  let i' := invoke handleGenerate i in
  state i' = mkState (description (state i)) (Some file)
               (sourceImagePreview (state i)) None true None
               firstLoadingMessage (isDragging (state i))
  /\ inflight i' = Some (AwaitingRead file (description (state i)))
  /\ exists es, log i' = log i ++ ReadAsDataURL file :: es
                /\ filter is_network_call es = [].
Proof.
  intros Hsrc i'. subst i'.
  destruct i as [[d sf p g l e m dr] ref ts nid lg infl].
  cbn in Hsrc. subst sf.
  rewrite invoke_ranOn. unfold ranOn, handleGenerate. cbn -[commit].
  rewrite commit_unfold. unfold runEffects. cbn.
  rewrite option_eqb_refl. cbn.
  destruct l; cbn.
  - repeat split. exists []. now split.
  - unfold loadingEffectCleanup. cbn.
    destruct (truthy_num ref) as [id|]; cbn.
    + repeat split. exists [ClearInterval id; SetInterval nid 3000].
      split; [now rewrite <- !app_assoc|reflexivity].
    + repeat split. exists [SetInterval nid 3000].
      split; [now rewrite <- !app_assoc|reflexivity].
Qed.

Lemma phase_generating (s : State) :
  phase s = Generating <-> isLoading s = true.
Proof.
  unfold phase, view. destruct (isLoading s); [now split|].
  destruct (truthy_str (generatedImage s)); [now split|].
  destruct (sourceImageFile s); [|now split].
  destruct (truthy_str (error s)); now split.
Qed.

(** C8. On a session with a source image, the first run of
    [handleGenerate], which ends at its first [await], sets the loading flag
    and clears the generated image and the error message; the model call has
    not been made by then. And in every state that a user can bring about,
    phase Generating, which is the loading flag set, comes with no generated
    image and no error message. *)
Theorem generating_has_no_result {engine : Engine} :
  (forall (i : Instance) (file : File),
     sourceImageFile (state i) = Some file ->
     let i' := invoke handleGenerate i in
     isLoading (state i') = true
     /\ phase (state i') = Generating
     /\ generatedImage (state i') = None
     /\ error (state i') = None
     /\ inflight i' = Some (AwaitingRead file (description (state i)))
     /\ filter is_network_call (log i') = filter is_network_call (log i))
  /\ (forall s : State, phase s = Generating <-> isLoading s = true)
  /\ (forall i : Instance,
        reachable i ->
        phase (state i) = Generating ->
        generatedImage (state i) = None /\ error (state i) = None).
Proof.
  split; [|split; [exact phase_generating|]].
  - intros i file Hsrc i'.
    destruct (handleGenerate_start i file Hsrc) as (Hs & Hin & es & Hlog & Hes).
    fold i' in Hs, Hin, Hlog. rewrite Hs, Hin, Hlog.
    repeat split.
    rewrite filter_app. cbn [filter is_network_call]. rewrite Hes.
    apply app_nil_r.
  - intros i Hreach Hph.
    apply phase_generating in Hph.
    destruct (reachable_invariant i Hreach) as [_ Hinv].
    rewrite Hph in Hinv. now destruct Hinv as (? & ? & _).
Qed.

(** The session after the user has selected a photo and clicked generate. *)
Example generatingRun_run :
  run mount Fixtures.generatingRun
  = mkInstance
      (mkState "" (Some Fixtures.samplePhoto) (Some "blob:photo-1") None true None
         firstLoadingMessage false)
      (Some 1) [mkTimer 1 3000 0] 2
      [CreateObjectURL Fixtures.samplePhoto; ReadAsDataURL Fixtures.samplePhoto;
       SetInterval 1 3000]
      (Some (AwaitingRead Fixtures.samplePhoto "")).
Proof. reflexivity. Qed.

(** C8, on a session with a selected photo, by the handler and by the
    events of a user. *)
Lemma generating_has_no_result_witness :
  sourceImageFile (state Fixtures.selected) = Some Fixtures.samplePhoto
  /\ (isLoading (state (invoke handleGenerate Fixtures.selected)) = true
      /\ phase (state (invoke handleGenerate Fixtures.selected)) = Generating
      /\ generatedImage (state (invoke handleGenerate Fixtures.selected)) = None
      /\ error (state (invoke handleGenerate Fixtures.selected)) = None
      /\ inflight (invoke handleGenerate Fixtures.selected)
         = Some (AwaitingRead Fixtures.samplePhoto "")
      /\ filter is_network_call (log (invoke handleGenerate Fixtures.selected))
         = filter is_network_call (log Fixtures.selected))
  /\ reachable (run mount Fixtures.generatingRun)
  /\ phase (state (run mount Fixtures.generatingRun)) = Generating
  /\ (generatedImage (state (run mount Fixtures.generatingRun)) = None
      /\ error (state (run mount Fixtures.generatingRun)) = None).
Proof.
  split; [reflexivity|].
  split; [apply (proj1 generating_has_no_result Fixtures.selected Fixtures.samplePhoto);
          reflexivity|].
  split; [exists Fixtures.generatingRun; reflexivity|].
  split; [reflexivity|].
  apply (proj2 (proj2 generating_has_no_result) (run mount Fixtures.generatingRun));
    [exists Fixtures.generatingRun; reflexivity|reflexivity].
Defined.

(** *** The status message while generating *)

Lemma nextLoadingMessage_messageAt (k : nat) :
  nextLoadingMessage (messageAt k) = messageAt (S k).
Proof.
  unfold messageAt.
  replace (S k mod length loadingMessages)
    with ((k mod length loadingMessages + 1) mod length loadingMessages)
    by (rewrite Nat.Div0.add_mod_idemp_l; f_equal; lia).
  assert (Hlt : k mod length loadingMessages < 6)
    by (apply Nat.mod_upper_bound; discriminate).
  destruct (k mod length loadingMessages) as [|[|[|[|[|[|r]]]]]];
    [reflexivity..|lia].
Qed.

Lemma iter_nextLoadingMessage (n k : nat) :
  Nat.iter n nextLoadingMessage (messageAt k) = messageAt (k + n).
Proof.
  induction n as [|n IH]; [now rewrite Nat.add_0_r|].
  change (Nat.iter (S n) nextLoadingMessage (messageAt k))
    with (nextLoadingMessage (Nat.iter n nextLoadingMessage (messageAt k))).
  rewrite IH, nextLoadingMessage_messageAt.
  f_equal. lia.
Qed.

(** Time that passes while a single timer runs. *)
Lemma elapse_single (ms id delay e : nat) (i : Instance) :
  timers i = [mkTimer id delay e] ->
  elapse ms i
  = mkInstance
      (applyUpdate (state i)
         (UpdateLoadingMessage
            (fun m => Nat.iter ((e + ms) / delay) nextLoadingMessage m)))
      (intervalRef i) [mkTimer id delay ((e + ms) mod delay)] (nextTimerId i)
      (log i) (inflight i).
Proof.
  intros Hts. rewrite elapse_spec, Hts.
  unfold fireCount, ageTimer.
  cbn [map list_sum fold_right timer_elapsed timer_delay timer_id].
  now rewrite Nat.add_0_r.
Qed.

(** While the component loads, an event that is neither the passage of
    time nor the end of the generation changes neither state nor timers:
    the elements of the form are not rendered, and a file that has been read
    only lets the handler go on to the model call. *)
Lemma step_while_loading {engine : Engine} (j : Instance) (ev : Event) :
  isLoading (state j) = true ->
  endsGenerating ev = false ->
  elapsedOf ev = 0 ->
  (forall ms, ev <> Elapse ms) ->
  state (step j ev) = state j /\ timers (step j ev) = timers j.
Proof.
  intros Hl Hend _ Hne. unfold step.
  destruct (enabled j ev) eqn:Hen; [|now split].
  destruct j as [[d sf p g l e m dr] ref ts nid lg infl].
  unfold enabled, fileInputMounted, generateDisabled, view in Hen.
  cbn in Hl, Hen. subst l.
  destruct ev as [file minted| | |file minted| |v| | | |o|o|ms];
    try discriminate.
  - destruct infl as [[file text|file text]|]; try discriminate.
    destruct o as [result|ev]; [|discriminate].
    rewrite invoke_ranOn. unfold ranOn, handlerOf, handleGenerate_afterRead.
    cbn -[commit].
    rewrite commit_quiet by reflexivity. now split.
  - now destruct (Hne ms).
Qed.

(** While the component loads with one timer of 3000 ms, the status
    message is the one at the number of full periods that have passed,
    whatever else happens that does not end the generation. *)
Lemma rotation_run {engine : Engine} (evs : list Event) :
  forall (j : Instance) (id k e : nat),
    forallb (fun ev => negb (endsGenerating ev)) evs = true ->
    isLoading (state j) = true ->
    timers j = [mkTimer id 3000 e] ->
    e < 3000 ->
    loadingMessage (state j) = messageAt k ->
    let j' := run j evs in
    loadingMessage (state j') = messageAt ((k * 3000 + e + elapsed evs) / 3000)
    /\ isLoading (state j') = true.
Proof.
  induction evs as [|ev evs IH]; intros j id k e Hq Hl Hts He Hm j'.
  - subst j'. cbn [run fold_left]. unfold elapsed. cbn [map list_sum fold_right].
    rewrite Nat.add_0_r, Nat.div_add_l, (Nat.div_small e 3000), Nat.add_0_r
      by (try discriminate; assumption).
    now split.
  - subst j'. cbn [run fold_left].
    change (fold_left step evs (step j ev)) with (run (step j ev) evs).
    cbn [forallb] in Hq. apply andb_true_iff in Hq. destruct Hq as [Hev Hq].
    apply negb_true_iff in Hev.
    assert (Hsum : elapsed (ev :: evs) = elapsedOf ev + elapsed evs) by reflexivity.
    rewrite Hsum.
    assert (Hcases : (exists ms, ev = Elapse ms)
                     \/ (elapsedOf ev = 0 /\ forall ms, ev <> Elapse ms)).
    { destruct ev; try (right; split; [reflexivity|intros; discriminate]).
      left. eauto. }
    destruct Hcases as [[ms ->]|[H0 Hne]].
    2:{ destruct (step_while_loading j ev Hl Hev H0 Hne) as [Hs Ht].
        rewrite H0. cbn [Nat.add].
        apply (IH (step j ev) id k e Hq); congruence. }
    change (step j (Elapse ms)) with (elapse ms j).
    pose proof (elapse_single ms id 3000 e j Hts) as Hel.
    assert (Hf : isLoading (state (elapse ms j)) = isLoading (state j)
                 /\ loadingMessage (state (elapse ms j))
                    = Nat.iter ((e + ms) / 3000) nextLoadingMessage
                        (loadingMessage (state j))
                 /\ timers (elapse ms j) = [mkTimer id 3000 ((e + ms) mod 3000)])
      by (rewrite Hel; now repeat split).
    destruct Hf as (F1 & F2 & F3).
    destruct (IH (elapse ms j) id (k + (e + ms) / 3000) ((e + ms) mod 3000) Hq)
      as [Hm' Hl'].
    + congruence.
    + exact F3.
    + apply Nat.mod_upper_bound. discriminate.
    + rewrite F2, Hm. apply iter_nextLoadingMessage.
    + split; [|exact Hl'].
      rewrite Hm'. f_equal. f_equal. cbn [elapsedOf].
      pose proof (Nat.div_mod_eq (e + ms) 3000). lia.
Qed.

(** No event that can occur while loading queues an update of the status
    message, the timer apart. *)
Lemma handlerOf_loadingMessage {engine : Engine} (i : Instance) (ev : Event) :
  isLoading (state i) = true ->
  enabled i ev = true ->
  loadingMessage (fold_left applyUpdate (queue (ranOn (handlerOf i ev) i)) (state i))
  = loadingMessage (state i).
Proof.
  intros Hl Hen. unfold ranOn.
  destruct i as [[d sf p g l e m dr] ref ts nid lg infl].
  unfold enabled, fileInputMounted, generateDisabled, view in Hen.
  cbn in Hl, Hen. subst l.
  destruct ev as [file minted| | |file minted| |v| | | |o|o|ms];
    try discriminate; cbn.
  - destruct infl as [[file description|file description]|]; try discriminate.
    unfold handleGenerate_afterRead.
    destruct (fileToBase64_settle o); reflexivity.
  - destruct infl as [[file description|file description]|]; try discriminate.
    unfold handleGenerate_afterCall.
    destruct (generateHeadshot_settle o) as [effects [imageUrl|err]]; reflexivity.
  - reflexivity.
Qed.

(** When loading ends, the timer is cleared and the status message is the
    one that was last displayed. *)
Lemma generating_ends {engine : Engine} (j : Instance) (ev : Event) :
  sessionInvariant j ->
  isLoading (state j) = true ->
  isLoading (state (step j ev)) = false ->
  timers (step j ev) = [] /\ intervalRef (step j ev) = None
  /\ loadingMessage (state (step j ev)) = loadingMessage (state j).
Proof.
  intros [Hnid Hinv] Hl. rewrite Hl in Hinv.
  destruct Hinv as (_ & _ & id & e & Hid & Href & Hts).
  unfold step. destruct (enabled j ev) eqn:Hen; [|congruence].
  assert (Hinvoke : isLoading (state (invoke (handlerOf j ev) j)) = false ->
            timers (invoke (handlerOf j ev) j) = []
            /\ intervalRef (invoke (handlerOf j ev) j) = None
            /\ loadingMessage (state (invoke (handlerOf j ev) j))
               = loadingMessage (state j)).
  { pose proof (handlerOf_loadingMessage j ev Hl Hen) as Hm.
    destruct (handlerOf_ranOn j ev) as (Hs & Hr & Ht & Hn).
    rewrite invoke_ranOn.
    set (fb := ranOn (handlerOf j ev) j) in *.
    rewrite <- Hs in Hm.
    intros Hend. rewrite commit_state in Hend.
    destruct (commit_stop_loading fb id 3000 e) as [es ->];
      try assumption; try congruence.
    cbn [timers intervalRef state]. repeat split. rewrite Hm. congruence. }
  destruct ev; try exact Hinvoke.
  rewrite elapse_spec. cbn [state isLoading applyUpdate]. congruence.
Qed.

(** While nothing loads, time that passes changes nothing. *)
Lemma idle_elapse {engine : Engine} (j : Instance) (ms : nat) :
  sessionInvariant j ->
  isLoading (state j) = false ->
  step j (Elapse ms) = j.
Proof.
  intros [_ Hinv] Hl. rewrite Hl in Hinv. destruct Hinv as [_ Hts].
  change (step j (Elapse ms)) with (elapse ms j).
  rewrite elapse_spec.
  destruct j as [[] ? ts ? ? ?]. cbn in Hts. subst ts. reflexivity.
Qed.

(** The click on the generate button, on a session a user has brought
    about: loading starts with the first message and a fresh timer. *)
Lemma generating_starts {engine : Engine} (i : Instance) :
  sessionInvariant i ->
  enabled i ClickGenerate = true ->
  let i1 := step i ClickGenerate in
  isLoading (state i1) = true
  /\ loadingMessage (state i1) = firstLoadingMessage
  /\ exists id, intervalRef i1 = Some id /\ timers i1 = [mkTimer id 3000 0].
Proof.
  intros [Hnid Hinv] Hen i1. subst i1. unfold step. rewrite Hen.
  change (handlerOf i ClickGenerate) with handleGenerate.
  assert (Hview : isLoading (state i) = false
                  /\ exists file, sourceImageFile (state i) = Some file).
  { unfold enabled, view, generateDisabled in Hen.
    destruct (isLoading (state i)); [discriminate|].
    destruct (truthy_str (generatedImage (state i))); [discriminate|].
    destruct (sourceImageFile (state i)) as [file|]; [|discriminate].
    split; [reflexivity|now exists file]. }
  destruct Hview as [Hl [file Hsrc]]. rewrite Hl in Hinv.
  destruct Hinv as [Href Hts].
  destruct (handleGenerate_start i file Hsrc) as (Hs & _).
  cbn zeta in Hs. rewrite Hs. cbn [isLoading loadingMessage].
  repeat split.
  destruct (handlerOf_ranOn i ClickGenerate) as (Hs0 & Hr & Ht & Hn).
  change (handlerOf i ClickGenerate) with handleGenerate in Hs0, Hr, Ht, Hn.
  pose proof (invoke_state handleGenerate i) as Hnew. rewrite Hs in Hnew.
  rewrite invoke_ranOn.
  destruct (commit_start_loading (ranOn handleGenerate i)) as [es ->];
    try congruence.
  - cbn zeta. rewrite <- Hnew. reflexivity.
  - exists (nextTimerId (inst (ranOn handleGenerate i))).
    cbn [intervalRef timers]. rewrite Ht, Hts. now split.
Qed.

(** C9 as stated fails where it has the message reset when Generating
    ends: the [finally] block clears only the loading flag. After a
    generation that took seven seconds the status message is the third of
    the list, and it stays so until the next generation starts. *)
Lemma loading_message_not_reset_at_end :
  isLoading (state (run mount Fixtures.succeedingRun)) = false
  /\ phase (state (run mount Fixtures.succeedingRun)) = Succeeded
  /\ timers (run mount Fixtures.succeedingRun) = []
  /\ loadingMessage (state (run mount Fixtures.succeedingRun))
     = "Finding the perfect angle..."
  /\ loadingMessage (state (run mount Fixtures.succeedingRun))
     <> nth 0 loadingMessages "undefined".
Proof.
  repeat split; try reflexivity.
  vm_compute. discriminate.
Qed.

(** C9, amended. When the generate button is clicked, loading starts with
    the first message of the list and one timer of 3000 ms; after any events
    that do not end the generation (the file read may succeed meanwhile),
    the session is still generating and the status message is the message at
    the number of full 3000 ms periods that have passed, counted cyclically
    through the list from the first. When loading ends, the timer
    is cleared and the status message, which is no longer displayed, is left
    as it was; from then on time changes nothing, and the message is reset
    to the first only by the next click on the generate button. *)
Theorem loading_message_rotation {engine : Engine} :
  (forall i : Instance,
     reachable i ->
     enabled i ClickGenerate = true ->
     let i1 := step i ClickGenerate in
     phase (state i1) = Generating
     /\ loadingMessage (state i1) = "Warming up the studio lights..."
     /\ (exists id, intervalRef i1 = Some id /\ timers i1 = [mkTimer id 3000 0])
     /\ forall evs : list Event,
          forallb (fun ev => negb (endsGenerating ev)) evs = true ->
          let i2 := run i1 evs in
          phase (state i2) = Generating
          /\ loadingMessage (state i2)
             = nth ((elapsed evs / 3000) mod length loadingMessages)
                 loadingMessages "undefined")
  /\ (forall (j : Instance) (ev : Event),
        reachable j ->
        phase (state j) = Generating ->
        phase (state (step j ev)) <> Generating ->
        timers (step j ev) = [] /\ intervalRef (step j ev) = None
        /\ loadingMessage (state (step j ev)) = loadingMessage (state j))
  /\ (forall (j : Instance) (ms : nat),
        reachable j ->
        phase (state j) <> Generating ->
        step j (Elapse ms) = j).
Proof.
  split; [|split].
  - intros i Hreach Hen i1.
    pose proof (reachable_invariant i Hreach) as Hinv.
    destruct (generating_starts i Hinv Hen) as (Hl & Hm & id & Href & Hts).
    fold i1 in Hl, Hm, Href, Hts.
    split; [now apply phase_generating|].
    split; [exact Hm|].
    split; [now exists id|].
    intros evs Hevs i2.
    destruct (rotation_run evs i1 id 0 0 Hevs Hl Hts) as (Hm2 & Hl2);
      [lia|exact Hm|].
    fold i2 in Hm2, Hl2.
    split; [now apply phase_generating|].
    rewrite Hm2. reflexivity.
  - intros j ev Hreach Hph Hend.
    apply generating_ends.
    + now apply reachable_invariant.
    + now apply phase_generating.
    + destruct (isLoading (state (step j ev))) eqn:E; [|reflexivity].
      now apply phase_generating in E.
  - intros j ms Hreach Hph.
    apply idle_elapse; [now apply reachable_invariant|].
    destruct (isLoading (state j)) eqn:E; [|reflexivity].
    now apply phase_generating in E.
Qed.

(** C9 amended, on the session in which a photo has been selected: ten
    seconds into the generation, the file read meanwhile, the fourth message
    is displayed; when the model then answers, the timer is cleared and the
    message stays; and on a fresh session time changes nothing. *)
Lemma loading_message_rotation_witness :
  (reachable (run mount [ChooseFile (Some Fixtures.samplePhoto) "blob:photo-1"])
   /\ enabled (run mount [ChooseFile (Some Fixtures.samplePhoto) "blob:photo-1"])
        ClickGenerate = true
   /\ forallb (fun ev => negb (endsGenerating ev)) Fixtures.waitingRun = true
   /\ loadingMessage
        (state (run (step (run mount [ChooseFile (Some Fixtures.samplePhoto) "blob:photo-1"])
                       ClickGenerate)
                  Fixtures.waitingRun))
      = nth ((elapsed Fixtures.waitingRun / 3000) mod length loadingMessages)
          loadingMessages "undefined")
  /\
  (reachable (run mount (Fixtures.generatingRun ++ Fixtures.waitingRun))
   /\ phase (state (run mount (Fixtures.generatingRun ++ Fixtures.waitingRun)))
      = Generating
   /\ phase (state (step (run mount (Fixtures.generatingRun ++ Fixtures.waitingRun))
                      (CallSettled (Fulfilled Fixtures.pngResponse))))
      <> Generating
   /\ timers (step (run mount (Fixtures.generatingRun ++ Fixtures.waitingRun))
                (CallSettled (Fulfilled Fixtures.pngResponse))) = []
   /\ intervalRef (step (run mount (Fixtures.generatingRun ++ Fixtures.waitingRun))
                     (CallSettled (Fulfilled Fixtures.pngResponse))) = None
   /\ loadingMessage
        (state (step (run mount (Fixtures.generatingRun ++ Fixtures.waitingRun))
                  (CallSettled (Fulfilled Fixtures.pngResponse))))
      = loadingMessage (state (run mount (Fixtures.generatingRun ++ Fixtures.waitingRun))))
  /\
  (reachable mount
   /\ phase (state mount) <> Generating
   /\ step mount (Elapse 5000) = mount).
Proof.
  split; [|split].
  - split; [now exists [ChooseFile (Some Fixtures.samplePhoto) "blob:photo-1"]|].
    split; [reflexivity|].
    split; [reflexivity|].
    destruct (proj1 loading_message_rotation
                (run mount [ChooseFile (Some Fixtures.samplePhoto) "blob:photo-1"]))
      as (_ & _ & _ & H).
    + now exists [ChooseFile (Some Fixtures.samplePhoto) "blob:photo-1"].
    + reflexivity.
    + exact (proj2 (H Fixtures.waitingRun eq_refl)).
  - split; [now exists (Fixtures.generatingRun ++ Fixtures.waitingRun)|].
    split; [reflexivity|].
    split; [vm_compute; discriminate|].
    apply (proj1 (proj2 loading_message_rotation)
             (run mount (Fixtures.generatingRun ++ Fixtures.waitingRun))
             (CallSettled (Fulfilled Fixtures.pngResponse))).
    + now exists (Fixtures.generatingRun ++ Fixtures.waitingRun).
    + reflexivity.
    + vm_compute. discriminate.
  - split; [now exists []|].
    split; [vm_compute; discriminate|].
    apply (proj2 (proj2 loading_message_rotation) mount 5000).
    + now exists [].
    + vm_compute. discriminate.
Defined.

(** The run of the witness, evaluated. *)
Example rotation_run_example :
  loadingMessage (state (run mount (Fixtures.generatingRun ++ Fixtures.waitingRun)))
  = "Applying professional touch-ups...".
Proof. vm_compute. reflexivity. Qed.

(** The two continuations of [handleGenerate] make the calls of
    [generateHeadshot] on the encoded file, the MIME type of the file and
    the instruction text of the click, in its order. *)
Lemma handleGenerate_calls_generateHeadshot {engine : Engine}
    (i : Instance) (file : File) (text result : string)
    (o : Settled GenerateContentResponse) :
  log (inst (ranOn (handleGenerate_afterRead file text (Loaded result) ;;
                    handleGenerate_afterCall o) i))
  = log i ++ fst (generateHeadshot (fun _ => o)
                    (nth_error (split comma result) 1) (file_type file) text).
Proof.
  unfold ranOn, handleGenerate_afterRead, handleGenerate_afterCall, generateHeadshot.
  cbn -[generateHeadshot_settle].
  destruct (generateHeadshot_settle o) as [effects [imageUrl|err]];
    cbn; now rewrite <- app_assoc.
Qed.

(** *** The steps of a generation that is under way *)

(** The file has been read: the handler goes on to the model call with what
    the encoder resolved, and no cell of the state changes. *)
Lemma step_read_loaded {engine : Engine} (j : Instance) (file : File)
    (text result : string) :
  inflight j = Some (AwaitingRead file text) ->
  step j (ReadSettled (Loaded result))
  = mkInstance (state j) (intervalRef j) (timers j) (nextTimerId j)
      (log j ++ [GenerateContent
                   (buildRequest (nth_error (split comma result) 1)
                      (file_type file) text)])
      (Some (AwaitingCall file text)).
Proof.
  intros Hin. unfold step, enabled, handlerOf. rewrite Hin.
  rewrite invoke_ranOn. unfold ranOn, handleGenerate_afterRead.
  cbn -[commit].
  rewrite commit_quiet by reflexivity.
  cbn. now destruct j as [[] ? ? ? ? ?].
Qed.

(** The file read has failed: the [catch] block sets the generic message,
    the [finally] block clears the loading flag, and the handler is over. *)
Lemma step_read_failed {engine : Engine} (j : Instance) (file : File)
    (text : string) (ev : NonError) :
  inflight j = Some (AwaitingRead file text) ->
  let j' := step j (ReadSettled (ReadFailed ev)) in
  state j'
  = mkState (description (state j)) (sourceImageFile (state j))
      (sourceImagePreview (state j)) (generatedImage (state j)) false
      (Some "An unexpected error occurred.")
      (loadingMessage (state j)) (isDragging (state j))
  /\ inflight j' = None.
Proof.
  intros Hin j'.
  assert (Hj : j' = invoke (handleGenerate_afterRead file text (ReadFailed ev)) j).
  { subst j'. unfold step, enabled, handlerOf. now rewrite Hin. }
  split.
  - rewrite Hj, invoke_state. reflexivity.
  - rewrite Hj, invoke_inflight. reflexivity.
Qed.

(** The adapter has rejected: the [catch] block sets the message of the
    [Error], the [finally] block clears the loading flag, and the handler is
    over. *)
Lemma step_call_rejected {engine : Engine} (j : Instance) (file : File)
    (text : string) (o : Settled GenerateContentResponse)
    (effects : list Effect) (message : string) :
  inflight j = Some (AwaitingCall file text) ->
  generateHeadshot_settle o = (effects, Rejected (ThrownError message)) ->
  let j' := step j (CallSettled o) in
  state j'
  = mkState (description (state j)) (sourceImageFile (state j))
      (sourceImagePreview (state j)) (generatedImage (state j)) false
      (Some message)
      (loadingMessage (state j)) (isDragging (state j))
  /\ inflight j' = None.
Proof.
  intros Hin Ho j'.
  assert (Hj : j' = invoke (handleGenerate_afterCall o) j).
  { subst j'. unfold step, enabled, handlerOf. now rewrite Hin. }
  split.
  - rewrite Hj, invoke_state. unfold ranOn, handleGenerate_afterCall.
    rewrite Ho. reflexivity.
  - rewrite Hj, invoke_inflight. unfold ranOn, handleGenerate_afterCall.
    rewrite Ho. reflexivity.
Qed.

(** The form with a file and no result: the generate button is enabled. *)
Lemma form_with_file_enabled (j : Instance) :
  isLoading (state j) = false ->
  generatedImage (state j) = None ->
  sourceImageFile (state j) <> None ->
  enabled j ClickGenerate = true.
Proof.
  intros Hl Hg Hsrc. unfold enabled, view, generateDisabled.
  rewrite Hl, Hg. cbn. now destruct (sourceImageFile (state j)).
Qed.

(** While the component is loading, an event in which no promise settles
    is a user event, which finds nothing of the form rendered, or the
    passing of time, which rotates the loading message: the pending
    continuation and every other cell of the state stay as they are. *)
Lemma step_waiting {engine : Engine} (j : Instance) (ev : Event) :
  isLoading (state j) = true ->
  settles ev = false ->
  let j' := step j ev in
  inflight j' = inflight j
  /\ exists m,
       state j'
       = mkState (description (state j)) (sourceImageFile (state j))
           (sourceImagePreview (state j)) (generatedImage (state j)) true
           (error (state j)) m (isDragging (state j)).
Proof.
  intros Hl Hs j'. subst j'. unfold step.
  destruct j as [[d sf p g l e m dr] ref ts nid lg infl].
  cbn in Hl. subst l.
  destruct ev as [file minted| | |file minted| |v| | | |o|o|ms];
    try discriminate; try (split; [reflexivity|now exists m]).
  cbn [enabled]. rewrite elapse_spec. cbn -[nextLoadingMessage Nat.iter].
  split; [reflexivity|]. eauto.
Qed.

Lemma run_waiting {engine : Engine} (ws : list Event) :
  forall j : Instance,
    isLoading (state j) = true ->
    forallb (fun ev => negb (settles ev)) ws = true ->
    let j' := run j ws in
    inflight j' = inflight j
    /\ exists m,
         state j'
         = mkState (description (state j)) (sourceImageFile (state j))
             (sourceImagePreview (state j)) (generatedImage (state j)) true
             (error (state j)) m (isDragging (state j)).
Proof.
  induction ws as [|ev ws IH]; intros j Hl Hws.
  - split; [reflexivity|]. exists (loadingMessage (state j)).
    cbn. destruct (state j); cbn in *. now subst.
  - cbn in Hws. apply andb_true_iff in Hws as [Hev Hws].
    apply negb_true_iff in Hev.
    destruct (step_waiting j ev Hl Hev) as (Hi & m & Hs).
    assert (Hl' : isLoading (state (step j ev)) = true) by now rewrite Hs.
    destruct (IH (step j ev) Hl' Hws) as (Hi' & m' & Hs').
    change (run j (ev :: ws)) with (run (step j ev) ws). cbn zeta.
    split; [now rewrite Hi'|].
    exists m'. rewrite Hs', Hs. reflexivity.
Qed.

Lemma run_app {engine : Engine} (j : Instance) (evs1 evs2 : list Event) :
  run j (evs1 ++ evs2) = run (run j evs1) evs2.
Proof. apply fold_left_app. Qed.

(** *** A generation that fails *)

(** The adapter rejects with an [Error] only. *)
Lemma generateHeadshot_settle_rejects {engine : Engine}
    (o : Settled GenerateContentResponse) (effects : list Effect) (err : Thrown) :
  generateHeadshot_settle o = (effects, Rejected err) ->
  exists message, err = ThrownError message.
Proof.
  unfold generateHeadshot_settle.
  destruct (tryBody o) as [t|uri]; [|discriminate].
  destruct t as [message|v]; cbn; intros H; injection H as _ <-; eauto.
Qed.

(** C10. A generation that fails leaves the inputs alone. The first run of
    [handleGenerate] keeps the source file, its preview and the instruction
    text. When the file read fails, or when the adapter rejects, the
    continuation changes two cells of the state it finds: the error message,
    set to the message of the [Error] that was thrown or to
    "An unexpected error occurred." for any other value (which is what the
    file reader rejects with), and the loading flag, which is cleared; the
    handler is over, and with no generated image set the generate button is
    enabled again for the same file. Between the two, the continuation after
    a file read that succeeds changes no cell of the state and leaves the
    model call pending. So for a whole attempt that fails: from a session in
    which the generate button is enabled for a file, the click, a wait in
    which no promise settles, and then either a failed file read, or a file
    read that succeeds, a second wait and a model call that the adapter
    rejects, end in a session that holds the same file, the same preview
    and the same instruction text, shows the error message and no result,
    is no longer loading, has no continuation pending and has the generate
    button enabled. *)
Theorem handleGenerate_failure_keeps_input {engine : Engine} :
  (forall (i : Instance) (file : File),
     sourceImageFile (state i) = Some file ->
     let s1 := state (invoke handleGenerate i) in
     sourceImageFile s1 = Some file
     /\ sourceImagePreview s1 = sourceImagePreview (state i)
     /\ description s1 = description (state i))
  /\ (forall (j : Instance) (file : File) (text : string) (ev : NonError),
        inflight j = Some (AwaitingRead file text) ->
        let j' := step j (ReadSettled (ReadFailed ev)) in
        state j'
        = mkState (description (state j)) (sourceImageFile (state j))
            (sourceImagePreview (state j)) (generatedImage (state j)) false
            (Some "An unexpected error occurred.")
            (loadingMessage (state j)) (isDragging (state j))
        /\ inflight j' = None
        /\ (sourceImageFile (state j) <> None ->
            generatedImage (state j) = None ->
            enabled j' ClickGenerate = true))
  /\ (forall (j : Instance) (file : File) (text result : string),
        inflight j = Some (AwaitingRead file text) ->
        let j' := step j (ReadSettled (Loaded result)) in
        state j' = state j
        /\ inflight j' = Some (AwaitingCall file text))
  /\ (forall (j : Instance) (file : File) (text : string)
             (o : Settled GenerateContentResponse)
             (effects : list Effect) (err : Thrown),
        inflight j = Some (AwaitingCall file text) ->
        generateHeadshot_settle o = (effects, Rejected err) ->
        let j' := step j (CallSettled o) in
        exists message,
          err = ThrownError message
          /\ state j'
             = mkState (description (state j)) (sourceImageFile (state j))
                 (sourceImagePreview (state j)) (generatedImage (state j)) false
                 (Some message)
                 (loadingMessage (state j)) (isDragging (state j))
          /\ inflight j' = None
          /\ (sourceImageFile (state j) <> None ->
              generatedImage (state j) = None ->
              enabled j' ClickGenerate = true))
  /\ (forall message, catchMessage (ThrownError message) = message)
  /\ (forall v, catchMessage (ThrownOther v) = "An unexpected error occurred.")
  /\ (forall (i : Instance) (file : File) (ws : list Event) (ev : NonError),
        sourceImageFile (state i) = Some file ->
        enabled i ClickGenerate = true ->
        forallb (fun e => negb (settles e)) ws = true ->
        let i' := run i (ClickGenerate :: ws ++ [ReadSettled (ReadFailed ev)]) in
        sourceImageFile (state i') = Some file
        /\ sourceImagePreview (state i') = sourceImagePreview (state i)
        /\ description (state i') = description (state i)
        /\ generatedImage (state i') = None
        /\ isLoading (state i') = false
        /\ error (state i') = Some "An unexpected error occurred."
        /\ inflight i' = None
        /\ enabled i' ClickGenerate = true)
  /\ (forall (i : Instance) (file : File) (ws1 ws2 : list Event)
             (result : string) (o : Settled GenerateContentResponse)
             (effects : list Effect) (err : Thrown),
        sourceImageFile (state i) = Some file ->
        enabled i ClickGenerate = true ->
        forallb (fun e => negb (settles e)) ws1 = true ->
        forallb (fun e => negb (settles e)) ws2 = true ->
        generateHeadshot_settle o = (effects, Rejected err) ->
        let i' := run i (ClickGenerate :: ws1
                         ++ ReadSettled (Loaded result) :: ws2
                         ++ [CallSettled o]) in
        exists message,
          err = ThrownError message
          /\ sourceImageFile (state i') = Some file
          /\ sourceImagePreview (state i') = sourceImagePreview (state i)
          /\ description (state i') = description (state i)
          /\ generatedImage (state i') = None
          /\ isLoading (state i') = false
          /\ error (state i') = Some message
          /\ inflight i' = None
          /\ enabled i' ClickGenerate = true).
Proof.
  split; [|split; [|split; [|split; [|split; [|split; [|split]]]]]];
    try reflexivity.
  - intros i file Hsrc s1. subst s1.
    destruct (handleGenerate_start i file Hsrc) as (Hs & _).
    cbn zeta in Hs. rewrite Hs. now repeat split.
  - intros j file text ev Hin j'.
    destruct (step_read_failed j file text ev Hin) as (Hs & Hi).
    fold j' in Hs, Hi. repeat split; [exact Hs|exact Hi|].
    intros Hsrc Hg. apply form_with_file_enabled; now rewrite Hs.
  - intros j file text result Hin j'. subst j'.
    now rewrite (step_read_loaded j file text result Hin).
  - intros j file text o effects err Hin Ho j'.
    destruct (generateHeadshot_settle_rejects o effects err Ho) as [message ->].
    exists message. split; [reflexivity|].
    destruct (step_call_rejected j file text o effects message Hin Ho)
      as (Hs & Hi).
    fold j' in Hs, Hi. repeat split; [exact Hs|exact Hi|].
    intros Hsrc Hg. apply form_with_file_enabled; now rewrite Hs.
  - intros i file ws ev Hsrc Hen Hws i'.
    assert (H1 : step i ClickGenerate = invoke handleGenerate i)
      by (unfold step; now rewrite Hen).
    destruct (handleGenerate_start i file Hsrc) as (Hs1 & Hi1 & _).
    cbn zeta in Hs1, Hi1.
    remember (invoke handleGenerate i) as i1 eqn:E1. clear E1.
    assert (Hl1 : isLoading (state i1) = true) by now rewrite Hs1.
    destruct (run_waiting ws i1 Hl1 Hws) as (Hi2 & m & Hs2).
    cbn zeta in Hi2, Hs2.
    assert (Hi' : i' = step (run i1 ws) (ReadSettled (ReadFailed ev))).
    { subst i'.
      change (run i (ClickGenerate :: ws ++ [ReadSettled (ReadFailed ev)]))
        with (run (step i ClickGenerate) (ws ++ [ReadSettled (ReadFailed ev)])).
      now rewrite H1, run_app. }
    clearbody i'.
    remember (run i1 ws) as i2 eqn:E2. clear E2.
    rewrite Hi1 in Hi2. rewrite Hs1 in Hs2. cbn in Hs2.
    destruct (step_read_failed i2 file _ ev Hi2) as (Hs3 & Hi3).
    cbn zeta in Hs3, Hi3. rewrite <- Hi' in Hs3, Hi3.
    rewrite Hs2 in Hs3. cbn in Hs3.
    assert (Hb : enabled i' ClickGenerate = true)
      by (apply form_with_file_enabled; now rewrite Hs3).
    rewrite Hs3. cbn. now repeat split.
  - intros i file ws1 ws2 result o effects err Hsrc Hen Hws1 Hws2 Ho i'.
    destruct (generateHeadshot_settle_rejects o effects err Ho) as [message ->].
    exists message. split; [reflexivity|].
    assert (H1 : step i ClickGenerate = invoke handleGenerate i)
      by (unfold step; now rewrite Hen).
    destruct (handleGenerate_start i file Hsrc) as (Hs1 & Hi1 & _).
    cbn zeta in Hs1, Hi1.
    remember (invoke handleGenerate i) as i1 eqn:E1. clear E1.
    assert (Hl1 : isLoading (state i1) = true) by now rewrite Hs1.
    destruct (run_waiting ws1 i1 Hl1 Hws1) as (Hi2 & m & Hs2).
    cbn zeta in Hi2, Hs2.
    assert (Hi' : i' = step (run (step (run i1 ws1)
                                    (ReadSettled (Loaded result))) ws2)
                         (CallSettled o)).
    { subst i'.
      change (run i (ClickGenerate :: ws1
                     ++ ReadSettled (Loaded result) :: ws2 ++ [CallSettled o]))
        with (run (step i ClickGenerate)
                (ws1 ++ ReadSettled (Loaded result) :: ws2 ++ [CallSettled o])).
      rewrite H1, run_app.
      change (run (run i1 ws1)
                (ReadSettled (Loaded result) :: ws2 ++ [CallSettled o]))
        with (run (step (run i1 ws1) (ReadSettled (Loaded result)))
                (ws2 ++ [CallSettled o])).
      now rewrite run_app. }
    clearbody i'.
    remember (run i1 ws1) as i2 eqn:E2. clear E2.
    rewrite Hi1 in Hi2. rewrite Hs1 in Hs2. cbn in Hs2.
    pose proof (step_read_loaded i2 file _ result Hi2) as Hr.
    remember (step i2 (ReadSettled (Loaded result))) as i3 eqn:E3. clear E3.
    assert (Hs3 : state i3 = state i2) by now rewrite Hr.
    assert (Hi3 : inflight i3 = Some (AwaitingCall file (description (state i))))
      by now rewrite Hr.
    clear Hr. rewrite Hs2 in Hs3.
    assert (Hl3 : isLoading (state i3) = true) by now rewrite Hs3.
    destruct (run_waiting ws2 i3 Hl3 Hws2) as (Hi4 & m' & Hs4).
    cbn zeta in Hi4, Hs4.
    remember (run i3 ws2) as i4 eqn:E4. clear E4.
    rewrite Hi3 in Hi4. rewrite Hs3 in Hs4. cbn in Hs4.
    destruct (step_call_rejected i4 file _ o effects message Hi4 Ho) as (Hs5 & Hi5).
    cbn zeta in Hs5, Hi5. rewrite <- Hi' in Hs5, Hi5.
    rewrite Hs4 in Hs5. cbn in Hs5.
    assert (Hb : enabled i' ClickGenerate = true)
      by (apply form_with_file_enabled; now rewrite Hs5).
    rewrite Hs5. cbn. now repeat split.
Qed.

(** C10, on a generation whose file read fails, on one that the model
    refuses, and on the whole of a refused attempt: the photo is selected,
    the file is read after three seconds, and four seconds later the model
    call fails with a quota error. *)
Lemma handleGenerate_failure_keeps_input_witness :
  (inflight (run mount Fixtures.generatingRun)
   = Some (AwaitingRead Fixtures.samplePhoto "")
   /\ state (step (run mount Fixtures.generatingRun)
               (ReadSettled (ReadFailed (VProgressEvent "error"))))
      = mkState "" (Some Fixtures.samplePhoto) (Some "blob:photo-1") None false
          (Some "An unexpected error occurred.") firstLoadingMessage false)
  /\
  (inflight (run mount Fixtures.awaitingCallRun)
   = Some (AwaitingCall Fixtures.samplePhoto "")
   /\ generateHeadshot_settle (Rejected (ThrownError "429 quota exceeded"))
      = ([ConsoleError consoleLabel (ThrownError "429 quota exceeded")],
         Rejected (ThrownError "Failed to generate headshot: 429 quota exceeded"))
   /\ exists message,
        ThrownError "Failed to generate headshot: 429 quota exceeded"
        = ThrownError message
        /\ state (step (run mount Fixtures.awaitingCallRun)
                    (CallSettled (Rejected (ThrownError "429 quota exceeded"))))
           = mkState "" (Some Fixtures.samplePhoto) (Some "blob:photo-1") None false
               (Some message) firstLoadingMessage false)
  /\
  (sourceImageFile (state Fixtures.selected) = Some Fixtures.samplePhoto
   /\ enabled Fixtures.selected ClickGenerate = true
   /\ forallb (fun e => negb (settles e)) [Elapse 3000] = true
   /\ forallb (fun e => negb (settles e)) [Elapse 4000; DragOver] = true
   /\ let i' := run Fixtures.selected
                  (ClickGenerate :: [Elapse 3000]
                   ++ ReadSettled (Loaded "data:image/jpeg;base64,SkZJRg==")
                      :: [Elapse 4000; DragOver]
                   ++ [CallSettled (Rejected (ThrownError "429 quota exceeded"))]) in
      exists message,
        ThrownError "Failed to generate headshot: 429 quota exceeded"
        = ThrownError message
        /\ sourceImageFile (state i') = Some Fixtures.samplePhoto
        /\ sourceImagePreview (state i') = Some "blob:photo-1"
        /\ description (state i') = ""
        /\ generatedImage (state i') = None
        /\ isLoading (state i') = false
        /\ error (state i') = Some message
        /\ inflight i' = None
        /\ enabled i' ClickGenerate = true).
Proof.
  split; [|split].
  - split; [reflexivity|].
    exact (proj1 (proj1 (proj2 handleGenerate_failure_keeps_input)
                    (run mount Fixtures.generatingRun) Fixtures.samplePhoto ""
                    (VProgressEvent "error") eq_refl)).
  - split; [reflexivity|]. split; [reflexivity|].
    destruct (proj1 (proj2 (proj2 (proj2 handleGenerate_failure_keeps_input)))
                (run mount Fixtures.awaitingCallRun) Fixtures.samplePhoto ""
                (Rejected (ThrownError "429 quota exceeded"))
                [ConsoleError consoleLabel (ThrownError "429 quota exceeded")]
                (ThrownError "Failed to generate headshot: 429 quota exceeded")
                eq_refl eq_refl)
      as (message & Hm & Hs & _).
    exists message. split; [exact Hm|exact Hs].
  - assert (Hsrc : sourceImageFile (state Fixtures.selected)
                   = Some Fixtures.samplePhoto) by reflexivity.
    assert (Hen : enabled Fixtures.selected ClickGenerate = true) by reflexivity.
    assert (Hws1 : forallb (fun e => negb (settles e)) [Elapse 3000] = true)
      by reflexivity.
    assert (Hws2 : forallb (fun e => negb (settles e)) [Elapse 4000; DragOver]
                   = true) by reflexivity.
    assert (Ho : generateHeadshot_settle
                   (Rejected (ThrownError "429 quota exceeded"))
                 = ([ConsoleError consoleLabel (ThrownError "429 quota exceeded")],
                    Rejected (ThrownError
                                "Failed to generate headshot: 429 quota exceeded")))
      by reflexivity.
    split; [exact Hsrc|]. split; [exact Hen|].
    split; [exact Hws1|]. split; [exact Hws2|].
    exact (proj2 (proj2 (proj2 (proj2 (proj2 (proj2
                   (proj2 handleGenerate_failure_keeps_input))))))
             Fixtures.selected Fixtures.samplePhoto
             [Elapse 3000] [Elapse 4000; DragOver]
             "data:image/jpeg;base64,SkZJRg=="
             (Rejected (ThrownError "429 quota exceeded"))
             [ConsoleError consoleLabel (ThrownError "429 quota exceeded")]
             (ThrownError "Failed to generate headshot: 429 quota exceeded")
             Hsrc Hen Hws1 Hws2 Ho).
Defined.

(** The whole of the refused attempt of the witness, evaluated: the session
    ends where it started, but for the message it shows. *)
Example refused_attempt_run :
  state (run Fixtures.selected
           (ClickGenerate :: [Elapse 3000]
            ++ ReadSettled (Loaded "data:image/jpeg;base64,SkZJRg==")
               :: [Elapse 4000; DragOver]
            ++ [CallSettled (Rejected (ThrownError "429 quota exceeded"))]))
  = mkState "" (Some Fixtures.samplePhoto) (Some "blob:photo-1") None false
      (Some "Failed to generate headshot: 429 quota exceeded")
      "Finding the perfect angle..." false.
Proof. vm_compute. reflexivity. Qed.

(** A generation that the model refuses: the session shows the wrapped
    message and keeps the photo, so that generate can be clicked again. *)
Example refusedRun_run :
  state (run mount Fixtures.refusedRun)
  = mkState "" (Some Fixtures.samplePhoto) (Some "blob:photo-1") None false
      (Some "Failed to generate headshot: 429 quota exceeded")
      firstLoadingMessage false
  /\ phase (state (run mount Fixtures.refusedRun)) = Failed
  /\ enabled (run mount Fixtures.refusedRun) ClickGenerate = true.
Proof. repeat split. Qed.

(** A generation that succeeds. *)
Example succeedingRun_run :
  generatedImage (state (run mount Fixtures.succeedingRun))
  = Some "data:image/png;base64,iVBORw0KGgo="
  /\ log (run mount Fixtures.succeedingRun)
     = [CreateObjectURL Fixtures.samplePhoto; ReadAsDataURL Fixtures.samplePhoto;
        SetInterval 1 3000;
        GenerateContent (buildRequest (Some "SkZJRg==") "image/jpeg" "");
        ClearInterval 1; ClearInterval 1].
Proof. split; vm_compute; reflexivity. Qed.

End ComponentFacts.

(** ** The encoder, [fileToBase64] *)

Module EncoderFacts.
Import GeminiService ImageGenerator Coverage StringFacts.
Local Open Scope list_scope.
#[local] Existing Instance exampleEngine.

Lemma split_no_comma (s : string) :
  mentions comma s = false -> split comma s = [s].
Proof.
  induction s as [|c s IH]; [reflexivity|].
  cbn [mentions split]. intros H. apply orb_false_iff in H. destruct H as [Hc Hs].
  rewrite Hc, (IH Hs). reflexivity.
Qed.

Lemma split_at_comma (a b : string) :
  mentions comma a = false ->
  split comma (a ++ String comma b)%string = a :: split comma b.
Proof.
  induction a as [|c a IH]; intros H.
  - cbn [append split]. now rewrite Ascii.eqb_refl.
  - cbn [mentions] in H. apply orb_false_iff in H. destruct H as [Hc Ha].
    cbn [append split]. rewrite Hc, (IH Ha). reflexivity.
Qed.

Lemma split_head (s : string) : exists h t, split comma s = h :: t.
Proof.
  induction s as [|c s (h & t & IH)]; [now exists EmptyString, []|].
  cbn [split]. destruct (Ascii.eqb c comma); [eauto|].
  rewrite IH. eauto.
Qed.

Lemma mentions_append (c : ascii) (a b : string) :
  mentions c (a ++ b)%string = mentions c a || mentions c b.
Proof.
  induction a as [|x a IH]; [reflexivity|].
  cbn [append mentions]. now rewrite IH, orb_assoc.
Qed.

(** X1. The encoder resolves with the text between the first and the second
    comma of what the reader loaded. For a data URL, a header without a
    comma, a comma and a payload without a comma (the base64 alphabet has
    none), that is the payload, also if more text follows after a further
    comma; so the data URI that the adapter builds from a part reads back
    as the data of that part. *)
Theorem fileToBase64_payload
    (readAsDataURL : File -> ReadOutcome) (file : File) (header payload : string) :
  mentions comma header = false ->
  mentions comma payload = false ->
  (readAsDataURL file = Loaded (header ++ "," ++ payload)%string ->
   fileToBase64 readAsDataURL file = ([ReadAsDataURL file], Fulfilled (Some payload)))
  /\ (forall rest,
        readAsDataURL file = Loaded (header ++ "," ++ payload ++ "," ++ rest)%string ->
        fileToBase64 readAsDataURL file = ([ReadAsDataURL file], Fulfilled (Some payload)))
  /\ (forall b : Blob,
        mimeType b = header -> data b = payload ->
        fileToBase64_settle (Loaded (dataURI b)) = Fulfilled (Some (data b))).
Proof.
  intros Hh Hp. split; [|split].
  - intros Hr. unfold fileToBase64, fileToBase64_settle. rewrite Hr.
    change (header ++ "," ++ payload)%string with (header ++ String comma payload)%string.
    now rewrite (split_at_comma _ _ Hh), (split_no_comma _ Hp).
  - intros rest Hr. unfold fileToBase64, fileToBase64_settle. rewrite Hr.
    change (header ++ "," ++ payload ++ "," ++ rest)%string
      with (header ++ String comma (payload ++ String comma rest))%string.
    now rewrite (split_at_comma _ _ Hh), (split_at_comma _ _ Hp).
  - intros b Hm Hd. unfold fileToBase64_settle, dataURI.
    rewrite Hm, Hd.
    replace ("data:" ++ header ++ ";base64," ++ payload)%string
      with (("data:" ++ header ++ ";base64") ++ String comma payload)%string
      by (rewrite !append_assoc; reflexivity).
    rewrite split_at_comma, (split_no_comma _ Hp); [reflexivity|].
    rewrite !mentions_append, Hh. reflexivity.
Qed.

(** X1, on the data URL of a small JPEG. *)
Lemma fileToBase64_payload_witness :
  mentions comma "data:image/jpeg;base64" = false
  /\ mentions comma "SkZJRg==" = false
  /\ fileToBase64 (fun _ => Loaded "data:image/jpeg;base64,SkZJRg==") Fixtures.samplePhoto
     = ([ReadAsDataURL Fixtures.samplePhoto], Fulfilled (Some "SkZJRg==")).
Proof.
  split; [reflexivity|]. split; [reflexivity|].
  apply (proj1 (fileToBase64_payload
                  (fun _ => Loaded "data:image/jpeg;base64,SkZJRg==")
                  Fixtures.samplePhoto "data:image/jpeg;base64" "SkZJRg=="
                  eq_refl eq_refl)).
  reflexivity.
Defined.

(** X2. The encoder fails in one way only, with the event of the reader,
    which is no [Error]; and on a result without a comma it does not fail
    but resolves with [undefined]. *)
Theorem fileToBase64_edges (readAsDataURL : File -> ReadOutcome) (file : File) :
  (forall ev,
     readAsDataURL file = ReadFailed ev ->
     fileToBase64 readAsDataURL file
     = ([ReadAsDataURL file], Rejected (ThrownOther ev)))
  /\ (forall result,
        readAsDataURL file = Loaded result ->
        mentions comma result = false ->
        fileToBase64 readAsDataURL file = ([ReadAsDataURL file], Fulfilled None))
  /\ (forall result,
        readAsDataURL file = Loaded result ->
        exists v, snd (fileToBase64 readAsDataURL file) = Fulfilled v).
Proof.
  unfold fileToBase64, fileToBase64_settle.
  split; [|split].
  - intros ev ->. reflexivity.
  - intros result -> Hc. now rewrite (split_no_comma _ Hc).
  - intros result ->. eexists. reflexivity.
Qed.

(** X2, on a reader that fails and on the data URL of an empty file. *)
Lemma fileToBase64_edges_witness :
  fileToBase64 (fun _ => ReadFailed (VProgressEvent "error")) Fixtures.samplePhoto
  = ([ReadAsDataURL Fixtures.samplePhoto], Rejected (ThrownOther (VProgressEvent "error")))
  /\ mentions comma "data:" = false
  /\ fileToBase64 (fun _ => Loaded "data:") Fixtures.samplePhoto
     = ([ReadAsDataURL Fixtures.samplePhoto], Fulfilled None).
Proof.
  split; [|split; [reflexivity|]].
  - apply (proj1 (fileToBase64_edges (fun _ => ReadFailed (VProgressEvent "error"))
                    Fixtures.samplePhoto)).
    reflexivity.
  - apply (proj1 (proj2 (fileToBase64_edges (fun _ => Loaded "data:")
                           Fixtures.samplePhoto)) "data:"); reflexivity.
Defined.

End EncoderFacts.

(** ** The adapter on every outcome of the model call *)

Module AdapterFacts.
Import GeminiService ImageGenerator Coverage StringFacts.
Local Open Scope list_scope.
#[local] Existing Instance exampleEngine.

(** X3. A response that lacks the candidates, the first candidate, its
    content or its parts makes the read [response.candidates[0].content.parts]
    raise a [TypeError]; the adapter does not take it for an empty response
    but wraps the engine's message like a failed call. Candidates after the
    first are not looked at. *)
Theorem generateHeadshot_malformed_response {engine : Engine}
    (generateContent : GenerateContentParameters -> Settled GenerateContentResponse)
    (base64Image : option string) (mime description : string)
    (response : GenerateContentResponse) (fault : Fault) :
  generateContent (buildRequest base64Image mime description) = Fulfilled response ->
  (candidates response = None /\ fault = ReadIndexOfUndefined)
  \/ (candidates response = Some [] /\ fault = ReadContentOfUndefined)
  \/ (exists cs, candidates response = Some (mkCandidate None :: cs)
                 /\ fault = ReadPartsOfUndefined)
  \/ (exists cs, candidates response = Some (mkCandidate (Some (mkContent None)) :: cs)
                 /\ fault = NotIterable) ->
  generateHeadshot generateContent base64Image mime description
  = ([GenerateContent (buildRequest base64Image mime description);
      ConsoleError consoleLabel (ThrownError (typeErrorMessage fault))],
     Rejected (ThrownError ("Failed to generate headshot: " ++ typeErrorMessage fault)%string)).
Proof.
  intros Hcall Hshape.
  unfold generateHeadshot, generateHeadshot_settle, tryBody, responseParts.
  rewrite Hcall.
  destruct Hshape as [[Hc ->]|[[Hc ->]|[(cs & Hc & ->)|(cs & Hc & ->)]]];
    rewrite Hc; reflexivity.
Qed.

(** X3, on a response without candidates, as after a blocked prompt. *)
Lemma generateHeadshot_malformed_response_witness :
  generateHeadshot (fun _ => Fulfilled (mkResponse None)) (Some "AAAA") "image/png" ""
  = ([GenerateContent (buildRequest (Some "AAAA") "image/png" "");
      ConsoleError consoleLabel (ThrownError (typeErrorMessage ReadIndexOfUndefined))],
     Rejected (ThrownError
       ("Failed to generate headshot: " ++ typeErrorMessage ReadIndexOfUndefined)%string)).
Proof.
  apply (generateHeadshot_malformed_response
           (fun _ => Fulfilled (mkResponse None)) (Some "AAAA") "image/png" ""
           (mkResponse None) ReadIndexOfUndefined).
  - reflexivity.
  - left. split; reflexivity.
Defined.

Lemma prefix_append (a b : string) : String.prefix a (a ++ b)%string = true.
Proof.
  induction a as [|x a IH]; [now destruct b|].
  cbn [append String.prefix]. now destruct (ascii_dec x x).
Qed.

Lemma firstInline_In (ps : list Part) (b : Blob) :
  firstInline ps = Some b -> exists p, In p ps /\ inlineData p = Some b.
Proof.
  induction ps as [|q ps IH]; [discriminate|].
  cbn [firstInline]. destruct (inlineData q) as [b'|] eqn:Hq.
  - intros H. injection H as <-. exists q. split; [now left|exact Hq].
  - intros H. destruct (IH H) as (p & Hin & Hp). exists p. split; [now right|exact Hp].
Qed.

(** X4. However the model call settles, the adapter makes this one call and
    ends in one of two ways. Either it fulfils, with the data URI of a part
    of the response, and logs nothing; or it logs what was thrown and
    rejects with an [Error] (never with another value) whose message is the
    fixed prefix followed by a message, or the fixed generic message. *)
Theorem generateHeadshot_outcomes {engine : Engine}
    (generateContent : GenerateContentParameters -> Settled GenerateContentResponse)
    (base64Image : option string) (mime description : string) :
  let request := buildRequest base64Image mime description in
  (exists b ps cs,
     generateContent request = Fulfilled (responseWith ps cs)
     /\ (exists p, In p ps /\ inlineData p = Some b)
     /\ generateHeadshot generateContent base64Image mime description
        = ([GenerateContent request], Fulfilled (dataURI b))
     /\ startsWith (dataURI b) "data:" = true)
  \/ (exists thrown message,
        generateHeadshot generateContent base64Image mime description
        = ([GenerateContent request; ConsoleError consoleLabel thrown],
           Rejected (ThrownError message))
        /\ ((exists m, message = failurePrefix ++ m)%string
            \/ message = unknownFailureMessage)).
Proof.
  intros request. unfold generateHeadshot. fold request.
  unfold generateHeadshot_settle, tryBody.
  destruct (generateContent request) as [response|t] eqn:Hcall.
  - destruct (responseParts response) as [t|ps] eqn:Hparts.
    + right. destruct t as [m|v]; do 2 eexists; (split; [reflexivity|]); eauto.
    + destruct (firstInline ps) as [b|] eqn:Hfirst.
      * left. unfold responseParts in Hparts.
        destruct response as [cands]. cbn in Hparts.
        destruct cands as [[|[ct] cs]|]; try discriminate.
        destruct ct as [[parts']|]; try discriminate.
        destruct parts' as [ps'|]; try discriminate.
        injection Hparts as ->.
        exists b, ps, cs.
        split; [reflexivity|]. split; [now apply firstInline_In|].
        split; [reflexivity|]. apply prefix_append.
      * right. do 2 eexists. split; [reflexivity|]. eauto.
  - right. destruct t as [m|v]; do 2 eexists; (split; [reflexivity|]); eauto.
Qed.

End AdapterFacts.

(** ** The session, event by event *)

Module SessionFacts.
Import GeminiService ImageGenerator Coverage StringFacts ComponentFacts.
Local Open Scope list_scope.
#[local] Existing Instance exampleEngine.

(** *** Calls that renders make *)

Lemma housekeeps_ret {A : Type} (a : A) : housekeeps (ret a : Handler A).
Proof. intros fb. exists []. now rewrite app_nil_r. Qed.

Lemma housekeeps_bind {A B : Type} (c : Handler A) (k : A -> Handler B) :
  housekeeps c -> (forall a, housekeeps (k a)) -> housekeeps (bind c k).
Proof.
  intros Hc Hk fb.
  change (runState (bind c k) fb)
    with (let (a, fb') := runState c fb in runState (k a) fb').
  destruct (Hc fb) as (es1 & H1 & F1).
  destruct (runState c fb) as [a fb']. cbn [snd] in H1.
  destruct (Hk a fb') as (es2 & H2 & F2).
  exists (es1 ++ es2). rewrite H2, H1, app_assoc. split; [reflexivity|].
  rewrite forallb_app, F1, F2. reflexivity.
Qed.

Lemma housekeeps_emit (e : Effect) : housekeeping e = true -> housekeeps (emit e).
Proof. intros He fb. exists [e]. cbn. now rewrite He. Qed.

Lemma housekeeps_clearInterval (id : nat) : housekeeps (clearInterval id).
Proof. intros fb. exists [ClearInterval id]. now split. Qed.

Lemma housekeeps_loadingEffectCleanup : housekeeps loadingEffectCleanup.
Proof.
  intros fb. unfold loadingEffectCleanup. cbn.
  destruct (truthy_num (intervalRef (inst fb))) as [id|].
  - exists [ClearInterval id]. now split.
  - exists []. now rewrite app_nil_r.
Qed.

Lemma housekeeps_loadingEffect (b : bool) : housekeeps (loadingEffect b).
Proof.
  intros fb. unfold loadingEffect. destruct b; cbn.
  - exists [SetInterval (nextTimerId (inst fb)) 3000]. now split.
  - destruct (truthy_num (intervalRef (inst fb))) as [id|].
    + exists [ClearInterval id]. now split.
    + exists []. now rewrite app_nil_r.
Qed.

Lemma housekeeps_previewEffectCleanup (p : option string) :
  housekeeps (previewEffectCleanup p).
Proof.
  intros fb. unfold previewEffectCleanup.
  destruct (truthy_str p); [destruct p as [url|]|].
  - exists [RevokeObjectURL url]. now split.
  - exists []. now rewrite app_nil_r.
  - exists []. now rewrite app_nil_r.
Qed.

Lemma housekeeps_runEffects (old new : State) : housekeeps (runEffects old new).
Proof.
  unfold runEffects.
  repeat (apply housekeeps_bind; [|intros _]);
    match goal with |- housekeeps (if ?b then _ else _) => destruct b end;
    first [ apply housekeeps_loadingEffectCleanup
          | apply housekeeps_loadingEffect
          | apply housekeeps_previewEffectCleanup
          | apply (housekeeps_ret tt) ].
Qed.

(** A render makes housekeeping calls only: it reads no file and calls no
    model. *)
Lemma commit_housekeeps : housekeeps commit.
Proof.
  intros fb. rewrite commit_unfold.
  destruct (housekeeps_runEffects (state (inst fb))
              (fold_left applyUpdate (queue fb) (state (inst fb)))
              (mkFiber (mkInstance (fold_left applyUpdate (queue fb) (state (inst fb)))
                          (intervalRef (inst fb)) (timers (inst fb))
                          (nextTimerId (inst fb)) (log (inst fb)) (inflight (inst fb))) []))
    as (es & H & F).
  exists es. now split.
Qed.

Lemma encoderCalls_app (l es : list Effect) :
  encoderCalls (l ++ es) = encoderCalls l + encoderCalls es.
Proof. unfold encoderCalls. now rewrite filter_app, length_app. Qed.

Lemma networkCalls_app (l es : list Effect) :
  networkCalls (l ++ es) = networkCalls l + networkCalls es.
Proof. unfold networkCalls. now rewrite filter_app, length_app. Qed.

Lemma housekeeping_calls (es : list Effect) :
  forallb housekeeping es = true -> encoderCalls es = 0 /\ networkCalls es = 0.
Proof.
  unfold encoderCalls, networkCalls.
  induction es as [|e es IH]; [now split|].
  cbn [forallb filter]. intros H. apply andb_true_iff in H. destruct H as [He Hes].
  unfold housekeeping in He. apply negb_true_iff, orb_false_iff in He.
  destruct He as [-> ->]. now apply IH.
Qed.

(** What an invocation leaves: the state with the queued setter calls
    applied, the pending handler as the handler left it, and the log of the
    handler with the housekeeping of the render appended. *)
Lemma invoke_summary (h : Handler unit) (i : Instance) :
  state (invoke h i)
  = fold_left applyUpdate (queue (ranOn h i)) (state (inst (ranOn h i)))
  /\ inflight (invoke h i) = inflight (inst (ranOn h i))
  /\ exists es, log (invoke h i) = log (inst (ranOn h i)) ++ es
                /\ forallb housekeeping es = true.
Proof.
  split; [apply invoke_state|]. split; [apply invoke_inflight|].
  rewrite invoke_ranOn. apply commit_housekeeps.
Qed.

(** *** Object URLs *)

Lemma option_eqb_neq (a b : option string) : a <> b -> option_eqb a b = false.
Proof.
  destruct a as [x|], b as [y|]; cbn; intros H; try reflexivity; try congruence.
  apply String.eqb_neq. congruence.
Qed.

(** A render after which the preview is no longer the truthy URL it was
    revokes that URL. *)
Lemma commit_revokes (fb : Fiber) (url : string) :
  sourceImagePreview (state (inst fb)) = Some url ->
  url <> ""%string ->
  sourceImagePreview (fold_left applyUpdate (queue fb) (state (inst fb))) <> Some url ->
  In (RevokeObjectURL url) (log (inst (snd (runState commit fb)))).
Proof.
  intros Hp Hurl Hnew. rewrite commit_unfold.
  set (new := fold_left applyUpdate (queue fb) (state (inst fb))) in *.
  set (fb0 := mkFiber _ []).
  unfold runEffects. rewrite Hp, (option_eqb_neq (Some url) _ (not_eq_sym Hnew)).
  cbn [negb].
  set (A := if negb (Bool.eqb (isLoading (state (inst fb))) (isLoading new))
            then loadingEffectCleanup else ret tt).
  set (C := if negb (Bool.eqb (isLoading (state (inst fb))) (isLoading new))
            then loadingEffect (isLoading new) else ret tt).
  change (runState (A ;; previewEffectCleanup (Some url) ;; C) fb0)
    with (let (_, fb1) := runState A fb0 in
          let (_, fb2) := runState (previewEffectCleanup (Some url)) fb1 in
          runState C fb2).
  destruct (runState A fb0) as [[] fb1].
  unfold previewEffectCleanup, truthy_str.
  rewrite (proj2 (String.eqb_neq url "") Hurl). cbn [negb].
  assert (HC : housekeeps C).
  { subst C. destruct (negb _); [apply housekeeps_loadingEffect|apply (housekeeps_ret tt)]. }
  change (runState (emit (RevokeObjectURL url)) fb1)
    with (tt, mkFiber (mkInstance (state (inst fb1)) (intervalRef (inst fb1))
                         (timers (inst fb1)) (nextTimerId (inst fb1))
                         (log (inst fb1) ++ [RevokeObjectURL url])
                         (inflight (inst fb1))) (queue fb1)).
  cbv beta iota.
  match goal with |- In _ (log (inst (snd (runState C ?fb2)))) =>
    destruct (HC fb2) as (es & -> & _) end.
  cbn [log inst]. apply in_or_app. left. apply in_or_app. right. now left.
Qed.

(** X5. For a file whose MIME type starts with "image/", whatever follows
    the slash, [handleFileSelect] stores the file as it is, takes the URL
    that [URL.createObjectURL] answers as the preview and clears the error
    message; the other cells and the pending handler are as before. On a
    session without a preview the one call it makes is [createObjectURL];
    a truthy preview that it replaces is revoked. From phase Idle the
    session is then in phase ImageSelected. Without a file (a dialog that
    was cancelled) nothing changes. *)
Theorem handleFileSelect_accepts_image (i : Instance) (f : File) (minted : string) :
  startsWith (file_type f) "image/" = true ->
  let i' := invoke (handleFileSelect minted (Some f)) i in
  state i'
  = mkState (description (state i)) (Some f) (Some minted)
      (generatedImage (state i)) (isLoading (state i)) None
      (loadingMessage (state i)) (isDragging (state i))
  /\ inflight i' = inflight i
  /\ (sourceImagePreview (state i) = None ->
      log i' = log i ++ [CreateObjectURL f])
  /\ (forall url, sourceImagePreview (state i) = Some url -> url <> ""%string ->
        In (RevokeObjectURL url) (log i') /\ In (CreateObjectURL f) (log i'))
  /\ (phase (state i) = Idle ->
      phase (state i') = ImageSelected /\ view (state i') = FormView)
  /\ invoke (handleFileSelect minted None) i = i.
Proof.
  intros Hty i'.
  destruct i as [[d sf p g l e m dr] ref ts nid lg infl].
  assert (Hran : ranOn (handleFileSelect minted (Some f))
                   (mkInstance (mkState d sf p g l e m dr) ref ts nid lg infl)
                 = mkFiber
                     (mkInstance (mkState d sf p g l e m dr) ref ts nid
                        (lg ++ (if truthy_str p
                                then match p with
                                     | Some url => [RevokeObjectURL url]
                                     | None => []
                                     end
                                else []) ++ [CreateObjectURL f]) infl)
                     [SetSourceImageFile (Some f); SetSourceImagePreview (Some minted);
                      SetError None]).
  { unfold ranOn, handleFileSelect. cbn. rewrite Hty. cbn.
    destruct (truthy_str p); [destruct p|]; cbn; now rewrite <- ?app_assoc. }
  destruct (invoke_summary (handleFileSelect minted (Some f))
              (mkInstance (mkState d sf p g l e m dr) ref ts nid lg infl))
    as (Hs & Hi & es & Hlog & Hes).
  fold i' in Hs, Hi, Hlog. rewrite Hran in Hs, Hi, Hlog. cbn in Hs, Hi, Hlog.
  split; [exact Hs|]. split; [exact Hi|].
  split; [|split; [|split]].
  - cbn. intros ->. subst i'. rewrite invoke_ranOn, Hran.
    rewrite commit_unfold. unfold runEffects. cbn.
    rewrite Bool.eqb_reflx. reflexivity.
  - cbn. intros url -> Hurl. rewrite Hlog. unfold truthy_str.
    rewrite (proj2 (String.eqb_neq url "") Hurl). cbn.
    split; apply in_or_app; left; apply in_or_app; right; cbn; auto.
  - unfold phase, view. rewrite Hs. cbn.
    destruct l; [discriminate|]. destruct (truthy_str g); [discriminate|].
    now split.
  - rewrite invoke_ranOn. unfold ranOn, handleFileSelect. cbn -[commit].
    apply (commit_quiet
             (mkFiber (mkInstance (mkState d sf p g l e m dr) ref ts nid lg infl) []));
      reflexivity.
Qed.

(** X5, for a WebP image chosen on a fresh session. *)
Lemma handleFileSelect_accepts_image_witness :
  startsWith "image/webp" "image/" = true
  /\ state (invoke (handleFileSelect "blob:photo-2"
                      (Some (mkFile "me.webp" "image/webp" []))) mount)
     = mkState "" (Some (mkFile "me.webp" "image/webp" [])) (Some "blob:photo-2")
         None false None firstLoadingMessage false.
Proof.
  split; [reflexivity|].
  exact (proj1 (handleFileSelect_accepts_image mount
                  (mkFile "me.webp" "image/webp" []) "blob:photo-2" eq_refl)).
Defined.

(** X6. [clearSourceImage] removes the file and its preview and revokes a
    truthy preview URL; it leaves the instruction text, the generated image
    and also the error message as they are, and the pending handler too.
    From phase ImageSelected or Failed the session is then in phase Idle. *)
Theorem clearSourceImage_clears (i : Instance) :
  let i' := invoke clearSourceImage i in
  state i'
  = mkState (description (state i)) None None
      (generatedImage (state i)) (isLoading (state i)) (error (state i))
      (loadingMessage (state i)) (isDragging (state i))
  /\ inflight i' = inflight i
  /\ (forall url, sourceImagePreview (state i) = Some url -> url <> ""%string ->
        In (RevokeObjectURL url) (log i'))
  /\ (phase (state i) = ImageSelected \/ phase (state i) = Failed ->
      phase (state i') = Idle).
Proof.
  intros i'.
  assert (Hq : queue (ranOn clearSourceImage i)
               = [SetSourceImageFile None; SetSourceImagePreview None]
               /\ state (inst (ranOn clearSourceImage i)) = state i
               /\ inflight (inst (ranOn clearSourceImage i)) = inflight i).
  { unfold ranOn, clearSourceImage. cbn.
    destruct (fileInputMounted (state i)); now repeat split. }
  destruct Hq as (Hq & Hst & Hin).
  destruct (invoke_summary clearSourceImage i) as (Hs & Hi & _).
  fold i' in Hs, Hi. rewrite Hq, Hst in Hs. rewrite Hin in Hi. cbn in Hs.
  split; [exact Hs|]. split; [exact Hi|]. split.
  - intros url Hp Hurl. subst i'. rewrite invoke_ranOn.
    apply commit_revokes; rewrite ?Hst, ?Hq; [exact Hp|exact Hurl|].
    cbn. discriminate.
  - intros Hph. unfold phase, view in *. rewrite Hs. cbn.
    destruct (isLoading (state i)); [destruct Hph; discriminate|].
    destruct (truthy_str (generatedImage (state i))); [destruct Hph; discriminate|].
    reflexivity.
Qed.

(** X6, on the session with a selected photo. *)
Lemma clearSourceImage_clears_witness :
  sourceImagePreview (state Fixtures.selected) = Some "blob:photo-1"%string
  /\ "blob:photo-1"%string <> ""%string
  /\ In (RevokeObjectURL "blob:photo-1") (log (invoke clearSourceImage Fixtures.selected))
  /\ phase (state Fixtures.selected) = ImageSelected
  /\ phase (state (invoke clearSourceImage Fixtures.selected)) = Idle.
Proof.
  split; [reflexivity|]. split; [discriminate|].
  destruct (clearSourceImage_clears Fixtures.selected) as (_ & _ & Hrev & Hph).
  split; [apply (Hrev "blob:photo-1"%string); [reflexivity|discriminate]|].
  split; [reflexivity|].
  apply Hph. left. reflexivity.
Defined.

(** X7. No object URL leaks: whenever an event takes a truthy preview URL
    out of the state, by a new selection, by a clear or by a start over,
    that URL is revoked in the same step. *)
Theorem preview_url_released {engine : Engine} (i : Instance) (ev : Event) (url : string) :
  sourceImagePreview (state i) = Some url ->
  url <> ""%string ->
  sourceImagePreview (state (step i ev)) <> Some url ->
  In (RevokeObjectURL url) (log (step i ev)).
Proof.
  intros Hp Hurl Hnew. unfold step in *.
  destruct (enabled i ev); [|congruence].
  assert (Hinvoke : sourceImagePreview (state (invoke (handlerOf i ev) i)) <> Some url ->
                    In (RevokeObjectURL url) (log (invoke (handlerOf i ev) i))).
  { intros H. destruct (handlerOf_ranOn i ev) as (Hs & _).
    rewrite invoke_state in H. rewrite invoke_ranOn.
    apply commit_revokes; [now rewrite Hs|exact Hurl|exact H]. }
  destruct ev; try exact (Hinvoke Hnew).
  rewrite elapse_spec in Hnew. cbn in Hnew. congruence.
Qed.

(** X7, for a photo that is cleared after it was selected. *)
Lemma preview_url_released_witness :
  sourceImagePreview (state Fixtures.selected) = Some "blob:photo-1"
  /\ "blob:photo-1" <> ""%string
  /\ sourceImagePreview (state (step Fixtures.selected ClickClear)) <> Some "blob:photo-1"
  /\ In (RevokeObjectURL "blob:photo-1") (log (step Fixtures.selected ClickClear)).
Proof.
  split; [reflexivity|]. split; [discriminate|]. split; [discriminate|].
  apply (preview_url_released Fixtures.selected ClickClear "blob:photo-1");
    [reflexivity|discriminate|discriminate].
Defined.

(** *** What every session keeps *)

Lemma truthy_dataURI (b : Blob) : truthy_str (Some (dataURI b)) = true.
Proof. reflexivity. Qed.

(** The two ways in which the adapter ends, as the component sees them. *)
Lemma generateHeadshot_settle_cases {engine : Engine}
    (o : Settled GenerateContentResponse) :
  (exists b, generateHeadshot_settle o = ([], Fulfilled (dataURI b)))
  \/ (exists t m, generateHeadshot_settle o
                  = ([ConsoleError consoleLabel t], Rejected (ThrownError m))).
Proof.
  unfold generateHeadshot_settle.
  destruct (tryBody o) as [t|uri] eqn:Ht.
  - right. destruct t as [m|v]; cbn; eauto.
  - left. unfold tryBody in Ht.
    destruct o as [response|t]; [|discriminate].
    destruct (responseParts response) as [t|ps]; [discriminate|].
    destruct (firstInline ps) as [b|]; [|discriminate].
    injection Ht as <-. now exists b.
Qed.

(** While the component loads, the elements of the form and of the result
    view are not rendered. *)
Lemma user_event_needs_idle (i : Instance) (ev : Event) :
  isUserEvent ev = true -> enabled i ev = true -> isLoading (state i) = false.
Proof.
  unfold enabled, fileInputMounted, view.
  destruct (isLoading (state i)); [|reflexivity].
  destruct ev; cbn; congruence.
Qed.

(** The parts of [coherent] that speak of the log, after an invocation
    whose handler made the calls [calls]. *)
Lemma invoke_calls (h : Handler unit) (i : Instance) (calls : list Effect) :
  log (inst (ranOn h i)) = log i ++ calls ->
  encoderCalls (log (invoke h i)) = encoderCalls (log i) + encoderCalls calls
  /\ networkCalls (log (invoke h i)) = networkCalls (log i) + networkCalls calls.
Proof.
  intros Hran. destruct (invoke_summary h i) as (_ & _ & es & Hlog & Hes).
  destruct (housekeeping_calls es Hes) as [He Hn].
  rewrite Hlog, Hran, !encoderCalls_app, !networkCalls_app, He, Hn. lia.
Qed.

Lemma coherent_generate (i : Instance) :
  sessionInvariant i -> coherent i ->
  enabled i ClickGenerate = true ->
  coherent (invoke handleGenerate i).
Proof.
  intros [_ Hinv] (Hfl & Hfp & Hg & Hc) Hen.
  pose proof (user_event_needs_idle i ClickGenerate eq_refl Hen) as Hl.
  assert (Hsrc : exists file, sourceImageFile (state i) = Some file).
  { unfold enabled, view, generateDisabled in Hen. rewrite Hl in Hen.
    destruct (truthy_str (generatedImage (state i))); [discriminate|].
    destruct (sourceImageFile (state i)) as [file|]; [eauto|discriminate]. }
  destruct Hsrc as [file Hsrc].
  destruct (handleGenerate_start i file Hsrc) as (Hs & Hi & _).
  cbn zeta in Hs, Hi.
  assert (Hran : log (inst (ranOn handleGenerate i)) = log i ++ [ReadAsDataURL file]).
  { unfold ranOn, handleGenerate. cbn. rewrite Hsrc. reflexivity. }
  destruct (invoke_calls handleGenerate i _ Hran) as [He Hn].
  assert (Hpend : pendingReads i = 0).
  { unfold pendingReads. destruct (inflight i) as [[? ?|? ?]|]; try reflexivity.
    destruct Hfl as (Hl' & _). congruence. }
  unfold coherent, pendingReads. rewrite Hs, Hi, He, Hn. cbn.
  repeat split; try assumption; try discriminate.
  - intros H. apply Hfp in H. congruence.
  - rewrite Hpend in Hc. lia.
Qed.

Lemma coherent_read {engine : Engine} (i : Instance) (o : ReadOutcome) :
  sessionInvariant i -> coherent i ->
  enabled i (ReadSettled o) = true ->
  coherent (invoke (handlerOf i (ReadSettled o)) i).
Proof.
  intros [_ Hinv] (Hfl & Hfp & Hg & Hc) Hen.
  unfold enabled in Hen. unfold handlerOf.
  destruct (inflight i) as [[file text|file text]|] eqn:Hin; try discriminate.
  destruct Hfl as (Hl & Hsrc & Htext). rewrite Hl in Hinv.
  destruct Hinv as (Hgen & Herr & _).
  assert (Hpend : pendingReads i = 1) by (unfold pendingReads; now rewrite Hin).
  destruct (invoke_summary (handleGenerate_afterRead file text o) i)
    as (Hs & Hi & _).
  destruct o as [result|ev].
  - assert (Hran : log (inst (ranOn (handleGenerate_afterRead file text (Loaded result)) i))
                   = log i ++ [GenerateContent
                                 (buildRequest (nth_error (split comma result) 1)
                                    (file_type file) text)])
      by reflexivity.
    destruct (invoke_calls _ i _ Hran) as [He Hn].
    unfold coherent, pendingReads. rewrite Hs, Hi, He, Hn. cbn.
    rewrite Hgen. repeat split; try assumption; try apply Hfp.
    rewrite Hpend in Hc. lia.
  - assert (Hran : log (inst (ranOn (handleGenerate_afterRead file text (ReadFailed ev)) i))
                   = log i ++ [])
      by (now rewrite app_nil_r).
    destruct (invoke_calls _ i _ Hran) as [He Hn].
    unfold coherent, pendingReads. rewrite Hs, Hi, He, Hn. cbn.
    rewrite Hgen. repeat split; try assumption; try apply Hfp.
    lia.
Qed.

Lemma coherent_call {engine : Engine} (i : Instance)
    (o : Settled GenerateContentResponse) :
  sessionInvariant i -> coherent i ->
  enabled i (CallSettled o) = true ->
  coherent (invoke (handlerOf i (CallSettled o)) i).
Proof.
  intros [_ Hinv] (Hfl & Hfp & Hg & Hc) Hen.
  unfold enabled in Hen. unfold handlerOf.
  destruct (inflight i) as [[file text|file text]|] eqn:Hin; try discriminate.
  destruct Hfl as (Hl & Hsrc & Htext). rewrite Hl in Hinv.
  destruct Hinv as (Hgen & Herr & _).
  assert (Hpend : pendingReads i = 0) by (unfold pendingReads; now rewrite Hin).
  destruct (invoke_summary (handleGenerate_afterCall o) i) as (Hs & Hi & _).
  destruct (generateHeadshot_settle_cases o) as [[b Ho]|(t & m & Ho)].
  - assert (Hran : queue (ranOn (handleGenerate_afterCall o) i)
                   = [SetGeneratedImage (Some (dataURI b)); SetIsLoading false]
                   /\ state (inst (ranOn (handleGenerate_afterCall o) i)) = state i
                   /\ inflight (inst (ranOn (handleGenerate_afterCall o) i)) = None
                   /\ log (inst (ranOn (handleGenerate_afterCall o) i)) = log i ++ []).
    { unfold ranOn, handleGenerate_afterCall. rewrite Ho. now repeat split. }
    destruct Hran as (Hq & Hst & Hin' & Hlog).
    destruct (invoke_calls _ i _ Hlog) as [He Hn].
    rewrite Hq, Hst in Hs. rewrite Hin' in Hi.
    unfold coherent, pendingReads. rewrite Hs, Hi, He, Hn.
    cbn -[dataURI].
    repeat split; try assumption; try apply Hfp; [now exists b|].
    rewrite Hpend in Hc. lia.
  - assert (Hran : queue (ranOn (handleGenerate_afterCall o) i)
                   = [SetError (Some m); SetIsLoading false]
                   /\ state (inst (ranOn (handleGenerate_afterCall o) i)) = state i
                   /\ inflight (inst (ranOn (handleGenerate_afterCall o) i)) = None
                   /\ log (inst (ranOn (handleGenerate_afterCall o) i))
                      = log i ++ [ConsoleError consoleLabel t]).
    { unfold ranOn, handleGenerate_afterCall. rewrite Ho. now repeat split. }
    destruct Hran as (Hq & Hst & Hin' & Hlog).
    destruct (invoke_calls _ i _ Hlog) as [He Hn].
    rewrite Hq, Hst in Hs. rewrite Hin' in Hi.
    unfold coherent, pendingReads. rewrite Hs, Hi, He, Hn. cbn.
    rewrite Hgen. repeat split; try assumption; try apply Hfp.
    rewrite Hpend in Hc. lia.
Qed.

Lemma coherent_elapse (i : Instance) (ms : nat) :
  coherent i -> coherent (elapse ms i).
Proof.
  intros Hco. rewrite elapse_spec. exact Hco.
Qed.

Ltac finish_user :=
  repeat split; try tauto; try discriminate;
  first [ exists []; now rewrite app_nil_r
        | eexists; rewrite <- ?app_assoc; split; reflexivity ].

(** What the handlers of the form and of the result view, the generate
    button apart, do to a session that does not load. *)
Lemma user_handler {engine : Engine} (i : Instance) (ev : Event) :
  isUserEvent ev = true ->
  isClickGenerate ev = false ->
  enabled i ev = true ->
  (truthy_str (generatedImage (state i)) = false -> generatedImage (state i) = None) ->
  let fb := ranOn (handlerOf i ev) i in
  let s' := fold_left applyUpdate (queue fb) (state i) in
  isLoading s' = false
  /\ ((sourceImageFile (state i) = None <-> sourceImagePreview (state i) = None) ->
      (sourceImageFile s' = None <-> sourceImagePreview s' = None))
  /\ (generatedImage s' = None
      \/ (generatedImage s' = generatedImage (state i) /\ error s' = error (state i)))
  /\ inflight (inst fb) = inflight i
  /\ exists calls, log (inst fb) = log i ++ calls /\ forallb housekeeping calls = true.
Proof.
  intros Hu Hg Hen Hgen.
  pose proof (user_event_needs_idle i ev Hu Hen) as Hl.
  destruct i as [[d sf p g l e m dr] ref ts nid lg infl].
  unfold enabled, fileInputMounted, generateDisabled, view in Hen.
  cbn in Hl, Hen, Hgen. subst l. unfold ranOn.
  destruct ev as [file minted| | |file minted| |v| | | |o|o|ms];
    try discriminate; cbn.
  - destruct (truthy_str g); [discriminate|]. rewrite (Hgen eq_refl).
    destruct file as [f|]; cbn; [|finish_user].
    destruct (startsWith (file_type f) "image/"); cbn; [|finish_user].
    destruct (truthy_str p); [destruct p|]; cbn; finish_user.
  - finish_user.
  - finish_user.
  - destruct (truthy_str g); [discriminate|]. rewrite (Hgen eq_refl).
    destruct file as [f|]; cbn; [|finish_user].
    destruct (startsWith (file_type f) "image/"); cbn; [|finish_user].
    destruct (truthy_str p); [destruct p|]; cbn; finish_user.
  - destruct (fileInputMounted _); cbn; finish_user.
  - finish_user.
  - destruct (truthy_str g); [destruct g|]; cbn; finish_user.
  - destruct (fileInputMounted _); cbn; finish_user.
Qed.

Lemma coherent_user {engine : Engine} (i : Instance) (ev : Event) :
  coherent i ->
  isUserEvent ev = true ->
  isClickGenerate ev = false ->
  enabled i ev = true ->
  coherent (invoke (handlerOf i ev) i).
Proof.
  intros (Hfl & Hfp & Hg & Hc) Hu Hng Hen.
  pose proof (user_event_needs_idle i ev Hu Hen) as Hl.
  assert (Hgen : truthy_str (generatedImage (state i)) = false ->
                 generatedImage (state i) = None).
  { destruct (generatedImage (state i)) as [uri|]; [|reflexivity].
    destruct Hg as (_ & b & ->). now rewrite truthy_dataURI. }
  assert (Hnone : inflight i = None).
  { destruct (inflight i) as [[? ?|? ?]|]; [| |reflexivity];
      destruct Hfl as (Hl' & _); congruence. }
  destruct (user_handler i ev Hu Hng Hen Hgen)
    as (Hl' & Hfp' & Hg' & Hin & calls & Hlog & Hcalls).
  destruct (handlerOf_ranOn i ev) as (Hst & _).
  destruct (invoke_summary (handlerOf i ev) i) as (Hs & Hi & _).
  destruct (invoke_calls _ i _ Hlog) as [He Hn].
  destruct (housekeeping_calls calls Hcalls) as [Hce Hcn].
  rewrite Hst in Hs.
  unfold coherent, pendingReads in *.
  rewrite Hs, Hi, Hin, Hnone, He, Hn, Hce, Hcn in *.
  split; [exact Hl'|]. split; [exact (Hfp' Hfp)|]. split; [|lia].
  destruct Hg' as [->|[-> ->]]; [exact I|exact Hg].
Qed.

Lemma step_coherent {engine : Engine} (i : Instance) (ev : Event) :
  sessionInvariant i -> coherent i -> coherent (step i ev).
Proof.
  intros Hinv Hco. unfold step.
  destruct (enabled i ev) eqn:Hen; [|exact Hco].
  destruct ev as [file minted| | |file minted| |v| | | |o|o|ms].
  - exact (coherent_user i (ChooseFile file minted) Hco eq_refl eq_refl Hen).
  - exact (coherent_user i DragOver Hco eq_refl eq_refl Hen).
  - exact (coherent_user i DragLeave Hco eq_refl eq_refl Hen).
  - exact (coherent_user i (Drop file minted) Hco eq_refl eq_refl Hen).
  - exact (coherent_user i ClickClear Hco eq_refl eq_refl Hen).
  - exact (coherent_user i (TypeDescription v) Hco eq_refl eq_refl Hen).
  - now apply coherent_generate.
  - exact (coherent_user i ClickDownload Hco eq_refl eq_refl Hen).
  - exact (coherent_user i ClickStartOver Hco eq_refl eq_refl Hen).
  - now apply coherent_read.
  - now apply coherent_call.
  - now apply coherent_elapse.
Qed.

Lemma run_coherent {engine : Engine} (evs : list Event) (i : Instance) :
  sessionInvariant i -> coherent i -> coherent (run i evs).
Proof.
  revert i. induction evs as [|ev evs IH]; intros i Hinv Hco; [exact Hco|].
  apply IH; [now apply step_invariant|now apply step_coherent].
Qed.

Lemma mount_coherent : coherent mount.
Proof. unfold coherent. cbn. repeat split; lia. Qed.

Lemma reachable_coherent {engine : Engine} (i : Instance) :
  reachable i -> coherent i.
Proof.
  intros [evs ->]. apply run_coherent; [apply mount_invariant|apply mount_coherent].
Qed.

(** X8. While the component loads, nothing that a user can do has any
    effect: the loading view offers no file input, no text area and no
    button, so no second generation can start, and the file and the
    instruction text cannot change under the one that runs. A promise that
    nobody waits for changes nothing either. *)
Theorem busy_session_ignores_user {engine : Engine} (j : Instance) :
  (forall ev, isLoading (state j) = true -> isUserEvent ev = true -> step j ev = j)
  /\ (forall o, inflight j = None -> step j (ReadSettled o) = j)
  /\ (forall o, inflight j = None -> step j (CallSettled o) = j).
Proof.
  split; [|split].
  - intros ev Hl Hu. unfold step.
    destruct (enabled j ev) eqn:Hen; [|reflexivity].
    pose proof (user_event_needs_idle j ev Hu Hen). congruence.
  - intros o Hin. unfold step, enabled. now rewrite Hin.
  - intros o Hin. unfold step, enabled. now rewrite Hin.
Qed.

(** X8, for a second click on generate and a start over while the first
    generation runs. *)
Lemma busy_session_ignores_user_witness :
  isLoading (state (run mount Fixtures.generatingRun)) = true
  /\ step (run mount Fixtures.generatingRun) ClickGenerate
     = run mount Fixtures.generatingRun
  /\ step (run mount Fixtures.generatingRun) ClickStartOver
     = run mount Fixtures.generatingRun.
Proof.
  split; [reflexivity|].
  split; apply (proj1 (busy_session_ignores_user (run mount Fixtures.generatingRun)));
    reflexivity.
Defined.

(** X9. In every session a user can bring about, [handleGenerate] is
    suspended exactly while the component loads, and what it closed over is
    what the state still holds: the file of the pending request is the
    stored source file and its instruction text is the stored text. *)
Theorem pending_request_is_current {engine : Engine} (i : Instance) :
  reachable i ->
  (isLoading (state i) = true <-> inflight i <> None)
  /\ (forall file text,
        inflight i = Some (AwaitingRead file text)
        \/ inflight i = Some (AwaitingCall file text) ->
        sourceImageFile (state i) = Some file /\ description (state i) = text)
  /\ (phase (state i) = Generating -> sourceImageFile (state i) <> None).
Proof.
  intros Hreach. destruct (reachable_coherent i Hreach) as (Hfl & _).
  split; [|split].
  - destruct (inflight i) as [[? ?|? ?]|].
    + destruct Hfl as (-> & _). split; [discriminate|reflexivity].
    + destruct Hfl as (-> & _). split; [discriminate|reflexivity].
    + rewrite Hfl. split; [discriminate|congruence].
  - intros file text [Hin|Hin]; rewrite Hin in Hfl; now destruct Hfl as (_ & ? & ?).
  - intros Hph. apply phase_generating in Hph.
    destruct (inflight i) as [[? ?|? ?]|].
    + destruct Hfl as (_ & -> & _). discriminate.
    + destruct Hfl as (_ & -> & _). discriminate.
    + congruence.
Qed.

(** X9, on the session in which the file has been read and the model call
    is pending. *)
Lemma pending_request_is_current_witness :
  reachable (run mount Fixtures.awaitingCallRun)
  /\ inflight (run mount Fixtures.awaitingCallRun)
     = Some (AwaitingCall Fixtures.samplePhoto "")
  /\ (sourceImageFile (state (run mount Fixtures.awaitingCallRun))
      = Some Fixtures.samplePhoto
      /\ description (state (run mount Fixtures.awaitingCallRun)) = ""%string).
Proof.
  split; [now exists Fixtures.awaitingCallRun|]. split; [reflexivity|].
  apply (proj1 (proj2 (pending_request_is_current
                         (run mount Fixtures.awaitingCallRun)
                         (ex_intro _ Fixtures.awaitingCallRun eq_refl)))
           Fixtures.samplePhoto ""%string).
  right. reflexivity.
Defined.

(** X10. In every session a user can bring about, the source file and its
    preview are present together or absent together. *)
Theorem file_and_preview_together {engine : Engine} (i : Instance) :
  reachable i ->
  (sourceImageFile (state i) = None <-> sourceImagePreview (state i) = None).
Proof.
  intros Hreach. now destruct (reachable_coherent i Hreach) as (_ & Hfp & _).
Qed.

(** X10, after a photo was selected and cleared again. *)
Lemma file_and_preview_together_witness :
  reachable (run mount [ChooseFile (Some Fixtures.samplePhoto) "blob:photo-1"; ClickClear])
  /\ (sourceImageFile
        (state (run mount [ChooseFile (Some Fixtures.samplePhoto) "blob:photo-1";
                           ClickClear])) = None
      <-> sourceImagePreview
            (state (run mount [ChooseFile (Some Fixtures.samplePhoto) "blob:photo-1";
                               ClickClear])) = None).
Proof.
  split; [now exists [ChooseFile (Some Fixtures.samplePhoto) "blob:photo-1"; ClickClear]|].
  apply (file_and_preview_together
           (run mount [ChooseFile (Some Fixtures.samplePhoto) "blob:photo-1"; ClickClear])).
  now exists [ChooseFile (Some Fixtures.samplePhoto) "blob:photo-1"; ClickClear].
Defined.

(** X11. In every session a user can bring about, a generated image and an
    error message are never set together. A generated image is a data URI
    that the adapter built from a part of a response, it is shown (phase
    Succeeded) and nothing loads; and the result view is rendered only for
    such an image. *)
Theorem result_excludes_error {engine : Engine} (i : Instance) :
  reachable i ->
  (forall uri, generatedImage (state i) = Some uri ->
     error (state i) = None
     /\ (exists b, uri = dataURI b)
     /\ isLoading (state i) = false
     /\ phase (state i) = Succeeded)
  /\ (error (state i) <> None -> generatedImage (state i) = None)
  /\ (phase (state i) = Succeeded -> generatedImage (state i) <> None).
Proof.
  intros Hreach.
  destruct (reachable_coherent i Hreach) as (_ & _ & Hg & _).
  destruct (reachable_invariant i Hreach) as [_ Hinv].
  split; [|split].
  - intros uri Huri. rewrite Huri in Hg. destruct Hg as (He & b & ->).
    assert (Hl : isLoading (state i) = false).
    { destruct (isLoading (state i)); [|reflexivity].
      destruct Hinv as (Hn & _). congruence. }
    repeat split; try assumption; [now exists b|].
    unfold phase, view. now rewrite Hl, Huri, truthy_dataURI.
  - intros He. destruct (generatedImage (state i)); [|reflexivity].
    destruct Hg as (Hn & _). congruence.
  - unfold phase, view. destruct (isLoading (state i)); [discriminate|].
    destruct (generatedImage (state i)); [discriminate|].
    cbn. destruct (sourceImageFile (state i)); [|discriminate].
    destruct (truthy_str (error (state i))); discriminate.
Qed.

(** X11, on the session after a generation that succeeded. *)
Lemma result_excludes_error_witness :
  reachable (run mount Fixtures.succeedingRun)
  /\ generatedImage (state (run mount Fixtures.succeedingRun))
     = Some "data:image/png;base64,iVBORw0KGgo="%string
  /\ error (state (run mount Fixtures.succeedingRun)) = None
  /\ phase (state (run mount Fixtures.succeedingRun)) = Succeeded.
Proof.
  assert (Hr : reachable (run mount Fixtures.succeedingRun))
    by (exists Fixtures.succeedingRun; reflexivity).
  assert (Hg : generatedImage (state (run mount Fixtures.succeedingRun))
               = Some "data:image/png;base64,iVBORw0KGgo="%string)
    by (vm_compute; reflexivity).
  destruct (proj1 (result_excludes_error (run mount Fixtures.succeedingRun) Hr)
              "data:image/png;base64,iVBORw0KGgo="%string Hg)
    as (He & _ & _ & Hph).
  split; [exact Hr|]. split; [exact Hg|]. split; [exact He|exact Hph].
Defined.

(** *** Calls that leave the component *)

(** An event makes at most one file read, and only the click on generate
    makes one. *)
Lemma step_encoderCalls {engine : Engine} (i : Instance) (ev : Event) :
  coherent i ->
  encoderCalls (log (step i ev))
  <= encoderCalls (log i) + (if isClickGenerate ev then 1 else 0).
Proof.
  intros Hco. unfold step.
  destruct (enabled i ev) eqn:Hen; [|lia].
  assert (Huser : isUserEvent ev = true -> isClickGenerate ev = false ->
                  encoderCalls (log (invoke (handlerOf i ev) i)) = encoderCalls (log i)).
  { intros Hu Hng.
    assert (Hgen : truthy_str (generatedImage (state i)) = false ->
                   generatedImage (state i) = None).
    { destruct Hco as (_ & _ & Hg & _).
      destruct (generatedImage (state i)) as [uri|]; [|reflexivity].
      destruct Hg as (_ & b & ->). now rewrite truthy_dataURI. }
    destruct (user_handler i ev Hu Hng Hen Hgen) as (_ & _ & _ & _ & calls & Hlog & Hc).
    destruct (invoke_calls _ i _ Hlog) as [He _].
    destruct (housekeeping_calls calls Hc) as [Hce _]. lia. }
  destruct ev as [file minted| | |file minted| |v| | | |o|o|ms];
    try (rewrite (Huser eq_refl eq_refl); cbn; lia).
  - change (handlerOf i ClickGenerate) with handleGenerate.
    unfold enabled, view, generateDisabled in Hen.
    destruct (isLoading (state i)); [discriminate|].
    destruct (truthy_str (generatedImage (state i))); [discriminate|].
    destruct (sourceImageFile (state i)) as [file|] eqn:Hsrc; [|discriminate].
    assert (Hran : log (inst (ranOn handleGenerate i)) = log i ++ [ReadAsDataURL file]).
    { unfold ranOn, handleGenerate. cbn. rewrite Hsrc. reflexivity. }
    destruct (invoke_calls _ i _ Hran) as [He _]. rewrite He. cbn. lia.
  - unfold enabled in Hen. unfold handlerOf.
    destruct (inflight i) as [[file text|file text]|]; try discriminate.
    destruct o as [result|e].
    + assert (Hran : log (inst (ranOn (handleGenerate_afterRead file text (Loaded result)) i))
                     = log i ++ [GenerateContent
                                   (buildRequest (nth_error (split comma result) 1)
                                      (file_type file) text)])
        by reflexivity.
      destruct (invoke_calls _ i _ Hran) as [He _]. rewrite He. cbn. lia.
    + assert (Hran : log (inst (ranOn (handleGenerate_afterRead file text (ReadFailed e)) i))
                     = log i ++ [])
        by (now rewrite app_nil_r).
      destruct (invoke_calls _ i _ Hran) as [He _]. rewrite He. cbn. lia.
  - unfold enabled in Hen. unfold handlerOf.
    destruct (inflight i) as [[file text|file text]|]; try discriminate.
    destruct (generateHeadshot_settle_cases o) as [[b Ho]|(t & m & Ho)].
    + assert (Hran : log (inst (ranOn (handleGenerate_afterCall o) i)) = log i ++ []).
      { unfold ranOn, handleGenerate_afterCall. rewrite Ho. reflexivity. }
      destruct (invoke_calls _ i _ Hran) as [He _]. rewrite He. cbn. lia.
    + assert (Hran : log (inst (ranOn (handleGenerate_afterCall o) i))
                     = log i ++ [ConsoleError consoleLabel t]).
      { unfold ranOn, handleGenerate_afterCall. rewrite Ho. reflexivity. }
      destruct (invoke_calls _ i _ Hran) as [He _]. rewrite He. cbn. lia.
  - rewrite elapse_spec. cbn [log isClickGenerate]. lia.
Qed.

Lemma run_encoderCalls {engine : Engine} (evs : list Event) (i : Instance) :
  sessionInvariant i -> coherent i ->
  encoderCalls (log (run i evs))
  <= encoderCalls (log i) + length (filter isClickGenerate evs).
Proof.
  revert i. induction evs as [|ev evs IH]; intros i Hinv Hco; [cbn; lia|].
  cbn [run fold_left].
  change (fold_left step evs (step i ev)) with (run (step i ev) evs).
  pose proof (IH (step i ev) (step_invariant i ev Hinv) (step_coherent i ev Hinv Hco)).
  pose proof (step_encoderCalls i ev Hco).
  cbn [filter]. destruct (isClickGenerate ev); cbn [length]; lia.
Qed.

(** X12. Whatever a user does and however the promises settle, the model
    is called at most once for each time the file is read, and the file is
    read at most once for each click on the generate button: no generation
    calls the model twice, and none is retried. *)
Theorem one_call_per_generation {engine : Engine} (evs : list Event) :
  networkCalls (log (run mount evs)) <= encoderCalls (log (run mount evs))
  /\ encoderCalls (log (run mount evs)) <= length (filter isClickGenerate evs).
Proof.
  split.
  - destruct (reachable_coherent (run mount evs) (ex_intro _ evs eq_refl))
      as (_ & _ & _ & Hc).
    lia.
  - pose proof (run_encoderCalls evs mount mount_invariant mount_coherent) as H.
    exact H.
Qed.

(** X13. In every session a user can bring about, the interval timer runs
    exactly while the component loads: then there is one timer, of 3000 ms,
    and the ref holds its handle; otherwise there is none and the ref is
    empty. Timers neither pile up nor outlive the generation. *)
Theorem one_timer_while_loading {engine : Engine} (i : Instance) :
  reachable i ->
  (isLoading (state i) = true ->
   exists id e, id <> 0 /\ intervalRef i = Some id /\ timers i = [mkTimer id 3000 e])
  /\ (isLoading (state i) = false -> timers i = [] /\ intervalRef i = None)
  /\ length (timers i) <= 1
  /\ (timers i <> [] <-> phase (state i) = Generating).
Proof.
  intros Hreach. destruct (reachable_invariant i Hreach) as [_ Hinv].
  rewrite phase_generating.
  destruct (isLoading (state i)).
  - destruct Hinv as (_ & _ & id & e & Hid & Href & Hts).
    split; [intros _; now exists id, e|]. split; [discriminate|].
    rewrite Hts. split; [cbn; lia|]. split; [reflexivity|discriminate].
  - destruct Hinv as [Href Hts].
    split; [discriminate|]. split; [now split|].
    rewrite Hts. split; [cbn; lia|]. split; [congruence|discriminate].
Qed.

(** X13, on the session that generates and on the one that has finished. *)
Lemma one_timer_while_loading_witness :
  reachable (run mount Fixtures.generatingRun)
  /\ isLoading (state (run mount Fixtures.generatingRun)) = true
  /\ (exists id e, id <> 0 /\ intervalRef (run mount Fixtures.generatingRun) = Some id
                   /\ timers (run mount Fixtures.generatingRun) = [mkTimer id 3000 e])
  /\ reachable (run mount Fixtures.succeedingRun)
  /\ isLoading (state (run mount Fixtures.succeedingRun)) = false
  /\ (timers (run mount Fixtures.succeedingRun) = []
      /\ intervalRef (run mount Fixtures.succeedingRun) = None).
Proof.
  split; [now exists Fixtures.generatingRun|]. split; [reflexivity|].
  split; [apply (proj1 (one_timer_while_loading (run mount Fixtures.generatingRun)
                          (ex_intro _ Fixtures.generatingRun eq_refl))); reflexivity|].
  split; [now exists Fixtures.succeedingRun|]. split; [reflexivity|].
  apply (proj1 (proj2 (one_timer_while_loading (run mount Fixtures.succeedingRun)
                         (ex_intro _ Fixtures.succeedingRun eq_refl)))).
  reflexivity.
Defined.

(** *** The steps of a generation *)

(** X14. When the model answers a pending call with a response that holds
    an inline part, the session shows the result: the generated image is
    the data URI of the first such part, the loading flag is cleared and
    the handler is over; every other cell, among them the source file and
    the instruction text, is as it was. The session is in phase Succeeded
    and offers the download. *)
Theorem generation_succeeds {engine : Engine} (j : Instance) (file : File)
    (text : string) (pre post : list Part) (p : Part) (blob : Blob)
    (cs : list Candidate) :
  inflight j = Some (AwaitingCall file text) ->
  Forall noInline pre ->
  inlineData p = Some blob ->
  let j' := step j (CallSettled (Fulfilled (responseWith (pre ++ p :: post) cs))) in
  state j'
  = mkState (description (state j)) (sourceImageFile (state j))
      (sourceImagePreview (state j))
      (Some ("data:" ++ mimeType blob ++ ";base64," ++ data blob)%string)
      false (error (state j)) (loadingMessage (state j)) (isDragging (state j))
  /\ inflight j' = None
  /\ phase (state j') = Succeeded
  /\ enabled j' ClickDownload = true
  /\ enabled j' ClickGenerate = false.
Proof.
  intros Hin Hpre Hp j'.
  assert (Ho : generateHeadshot_settle
                 (Fulfilled (responseWith (pre ++ p :: post) cs))
               = ([], Fulfilled (dataURI blob))).
  { unfold generateHeadshot_settle, tryBody.
    rewrite GeminiFacts.responseParts_responseWith,
      (GeminiFacts.firstInline_skip pre _ Hpre).
    cbn [firstInline]. now rewrite Hp. }
  assert (Hj : j' = invoke (handleGenerate_afterCall
                              (Fulfilled (responseWith (pre ++ p :: post) cs))) j).
  { subst j'. unfold step, enabled, handlerOf. now rewrite Hin. }
  assert (Hran : queue (ranOn (handleGenerate_afterCall
                                 (Fulfilled (responseWith (pre ++ p :: post) cs))) j)
                 = [SetGeneratedImage (Some (dataURI blob)); SetIsLoading false]
                 /\ state (inst (ranOn (handleGenerate_afterCall
                                 (Fulfilled (responseWith (pre ++ p :: post) cs))) j))
                    = state j
                 /\ inflight (inst (ranOn (handleGenerate_afterCall
                                 (Fulfilled (responseWith (pre ++ p :: post) cs))) j))
                    = None).
  { unfold ranOn, handleGenerate_afterCall. rewrite Ho. now repeat split. }
  destruct Hran as (Hq & Hst & Hnone).
  assert (Hs : state j'
               = mkState (description (state j)) (sourceImageFile (state j))
                   (sourceImagePreview (state j)) (Some (dataURI blob))
                   false (error (state j)) (loadingMessage (state j))
                   (isDragging (state j))).
  { rewrite Hj, invoke_state, Hq, Hst. reflexivity. }
  split; [exact Hs|].
  split; [rewrite Hj, invoke_inflight; exact Hnone|].
  unfold phase, enabled, view. rewrite Hs.
  cbn [isLoading generatedImage]. rewrite truthy_dataURI. now repeat split.
Qed.

(** X14, on the session whose model call is pending and a response of one
    PNG part. *)
Lemma generation_succeeds_witness :
  inflight (run mount Fixtures.awaitingCallRun)
  = Some (AwaitingCall Fixtures.samplePhoto "")
  /\ Forall noInline []
  /\ inlineData (mkPart (Some (mkBlob "iVBORw0KGgo=" "image/png")) None)
     = Some (mkBlob "iVBORw0KGgo=" "image/png")
  /\ state (step (run mount Fixtures.awaitingCallRun)
              (CallSettled (Fulfilled Fixtures.pngResponse)))
     = mkState "" (Some Fixtures.samplePhoto) (Some "blob:photo-1")
         (Some "data:image/png;base64,iVBORw0KGgo="%string)
         false None firstLoadingMessage false.
Proof.
  assert (Hin : inflight (run mount Fixtures.awaitingCallRun)
                = Some (AwaitingCall Fixtures.samplePhoto ""))
    by (vm_compute; reflexivity).
  split; [exact Hin|]. split; [constructor|]. split; [reflexivity|].
  destruct (generation_succeeds (run mount Fixtures.awaitingCallRun)
              Fixtures.samplePhoto ""%string [] []
              (mkPart (Some (mkBlob "iVBORw0KGgo=" "image/png")) None)
              (mkBlob "iVBORw0KGgo=" "image/png") [] Hin (Forall_nil _) eq_refl)
    as (Hs & _).
  exact Hs.
Defined.

(** X15. [handleDownload] does nothing without a generated image. With one
    it offers exactly that image for download, under the fixed name
    "ai-headshot.jpg" whatever the MIME type of the image is, and changes no
    state. *)
Theorem handleDownload_offers_image (i : Instance) :
  (truthy_str (generatedImage (state i)) = false -> invoke handleDownload i = i)
  /\ (forall href,
        generatedImage (state i) = Some href -> href <> ""%string ->
        invoke handleDownload i
        = mkInstance (state i) (intervalRef i) (timers i) (nextTimerId i)
            (log i ++ [DownloadLink href "ai-headshot.jpg"]) (inflight i)).
Proof.
  split.
  - intros Hg. rewrite invoke_ranOn. unfold ranOn, handleDownload.
    cbn -[commit]. rewrite Hg.
    rewrite commit_quiet by reflexivity. cbn. now destruct i as [[] ? ? ? ? ?].
  - intros href Hg Hne. rewrite invoke_ranOn. unfold ranOn, handleDownload.
    cbn -[commit]. rewrite Hg. unfold truthy_str.
    rewrite (proj2 (String.eqb_neq href "") Hne). cbn -[commit].
    rewrite commit_quiet by reflexivity. cbn. now destruct (state i).
Qed.

(** X15, on the session that shows a generated PNG image. *)
Lemma handleDownload_offers_image_witness :
  generatedImage (state Fixtures.succeeded)
  = Some "data:image/png;base64,iVBORw0KGgo="%string
  /\ "data:image/png;base64,iVBORw0KGgo="%string <> ""%string
  /\ log (invoke handleDownload Fixtures.succeeded)
     = [DownloadLink "data:image/png;base64,iVBORw0KGgo=" "ai-headshot.jpg"].
Proof.
  split; [reflexivity|]. split; [discriminate|].
  rewrite (proj2 (handleDownload_offers_image Fixtures.succeeded)
             "data:image/png;base64,iVBORw0KGgo="%string eq_refl);
    [reflexivity|discriminate].
Defined.

(** X16. The request that goes out is made of what the user entered. On
    a form with a source file, after the user has typed an instruction
    text, clicked generate and the file has been read, the log ends in one
    model call: to the model "gemini-2.5-flash-image", asking for image
    output only, with the MIME type of the file, with the prompt built from
    the typed text, and with exactly what the encoder resolved as image
    data; no other model call was made on the way. *)
Theorem request_carries_inputs {engine : Engine} (i : Instance) (file : File)
    (v result : string) :
  view (state i) = FormView ->
  sourceImageFile (state i) = Some file ->
  let i3 := run i [TypeDescription v; ClickGenerate; ReadSettled (Loaded result)] in
  inflight i3 = Some (AwaitingCall file v)
  /\ exists es,
       log i3
       = log i ++ es
         ++ [GenerateContent
               (mkRequest "gemini-2.5-flash-image"
                  (nth_error (split comma result) 1) (file_type file)
                  (fullPrompt v) [IMAGE])]
       /\ networkCalls es = 0.
Proof.
  intros Hview Hsrc i3.
  assert (Hl : isLoading (state i) = false
               /\ truthy_str (generatedImage (state i)) = false).
  { unfold view in Hview. destruct (isLoading (state i)); [discriminate|].
    destruct (truthy_str (generatedImage (state i))); [discriminate|]. now split. }
  destruct Hl as [Hl Hg].
  set (s1 := mkState v (sourceImageFile (state i)) (sourceImagePreview (state i))
               (generatedImage (state i)) (isLoading (state i)) (error (state i))
               (loadingMessage (state i)) (isDragging (state i))).
  assert (H1 : step i (TypeDescription v)
               = mkInstance s1 (intervalRef i) (timers i) (nextTimerId i)
                   (log i) (inflight i)).
  { unfold step, enabled. rewrite Hview.
    change (handlerOf i (TypeDescription v)) with (setDescription v).
    rewrite invoke_ranOn. unfold ranOn, setDescription. cbn -[commit].
    now rewrite commit_quiet by reflexivity. }
  set (i1 := mkInstance s1 (intervalRef i) (timers i) (nextTimerId i)
               (log i) (inflight i)) in *.
  assert (Hen : enabled i1 ClickGenerate = true).
  { unfold enabled, view, generateDisabled. cbn. now rewrite Hl, Hg, Hsrc. }
  destruct (handleGenerate_start i1 file Hsrc) as (_ & Hin & es & Hlog & Hes).
  cbn zeta in Hin, Hlog.
  assert (H2 : step i1 ClickGenerate = invoke handleGenerate i1).
  { unfold step. now rewrite Hen. }
  subst i3. cbn [run fold_left]. rewrite H1, H2.
  rewrite (step_read_loaded _ file v result Hin).
  cbn [inflight log]. split; [reflexivity|].
  exists (ReadAsDataURL file :: es). rewrite Hlog.
  split; [now rewrite <- app_assoc|].
  unfold networkCalls. cbn [filter is_network_call]. now rewrite Hes.
Qed.

(** X16, on the session with a selected photo and the text "in a suit". *)
Lemma request_carries_inputs_witness :
  view (state Fixtures.selected) = FormView
  /\ sourceImageFile (state Fixtures.selected) = Some Fixtures.samplePhoto
  /\ inflight (run Fixtures.selected
                 [TypeDescription "in a suit"; ClickGenerate;
                  ReadSettled (Loaded "data:image/jpeg;base64,SkZJRg==")])
     = Some (AwaitingCall Fixtures.samplePhoto "in a suit").
Proof.
  split; [reflexivity|]. split; [reflexivity|].
  exact (proj1 (request_carries_inputs Fixtures.selected Fixtures.samplePhoto
                  "in a suit"%string "data:image/jpeg;base64,SkZJRg=="%string
                  eq_refl eq_refl)).
Defined.

(** The run of the witness: the request as it is logged. *)
Example request_run :
  log (run Fixtures.selected
         [TypeDescription "in a suit"; ClickGenerate;
          ReadSettled (Loaded "data:image/jpeg;base64,SkZJRg==")])
  = [CreateObjectURL Fixtures.samplePhoto; ReadAsDataURL Fixtures.samplePhoto;
     SetInterval 1 3000;
     GenerateContent
       (mkRequest "gemini-2.5-flash-image" (Some "SkZJRg=="%string) "image/jpeg"
          (fullPrompt "in a suit") [IMAGE])].
Proof. vm_compute. reflexivity. Qed.

(** *** Drag and drop *)

(** X17. A drop goes through the same check as the file picker: what
    [handleDrop] leaves is what [handleFileSelect] leaves for the same file,
    with the drag highlight switched off, so a file that is no image is
    refused on this path too. Dragging over and leaving the drop zone
    change the drag highlight and nothing else. *)
Theorem handleDrop_selects (i : Instance) (minted : string) (file : option File) :
  state (invoke (handleDrop minted file) i)
  = applyUpdate (state (invoke (handleFileSelect minted file) i)) (SetIsDragging false)
  /\ inflight (invoke (handleDrop minted file) i) = inflight i
  /\ state (invoke handleDragOver i) = applyUpdate (state i) (SetIsDragging true)
  /\ state (invoke handleDragLeave i) = applyUpdate (state i) (SetIsDragging false)
  /\ (forall f, file = Some f -> startsWith (file_type f) "image/" = false ->
        error (state (invoke (handleDrop minted file) i))
        = Some "Please upload a valid image file (PNG, JPG, WEBP)."%string
        /\ sourceImageFile (state (invoke (handleDrop minted file) i))
           = sourceImageFile (state i)).
Proof.
  rewrite !invoke_state, invoke_inflight.
  unfold ranOn, handleDrop, handleDragOver, handleDragLeave, handleFileSelect.
  destruct file as [f|]; cbn.
  - destruct (startsWith (file_type f) "image/") eqn:Hty; cbn.
    + destruct (truthy_str (sourceImagePreview (state i)));
        [destruct (sourceImagePreview (state i))|]; cbn;
        (repeat split; try reflexivity; congruence).
    + repeat split; reflexivity.
  - repeat split; try reflexivity; discriminate.
Qed.

(** X17, for a PDF dropped on a fresh session. *)
Lemma handleDrop_selects_witness :
  startsWith (file_type Fixtures.sampleDocument) "image/" = false
  /\ error (state (invoke (handleDrop "blob:doc-1" (Some Fixtures.sampleDocument)) mount))
     = Some "Please upload a valid image file (PNG, JPG, WEBP)."%string
  /\ sourceImageFile
       (state (invoke (handleDrop "blob:doc-1" (Some Fixtures.sampleDocument)) mount))
     = sourceImageFile (state mount).
Proof.
  split; [reflexivity|].
  destruct (handleDrop_selects mount "blob:doc-1"%string (Some Fixtures.sampleDocument))
    as (_ & _ & _ & _ & H).
  apply (H Fixtures.sampleDocument); reflexivity.
Defined.

End SessionFacts.

(** ** The status messages *)

Module MessageFacts.
Import GeminiService ImageGenerator Coverage.
Local Open Scope list_scope.

Lemma loadingMessages_cases (m : string) :
  In m loadingMessages ->
  m = "Warming up the studio lights..."%string
  \/ m = "Adjusting the camera lens..."%string
  \/ m = "Finding the perfect angle..."%string
  \/ m = "Applying professional touch-ups..."%string
  \/ m = "Developing the photo in the digital darkroom..."%string
  \/ m = "Polishing the final image..."%string.
Proof.
  unfold loadingMessages. cbn [In]. intuition auto.
Qed.

(** X18. The interval callback never leaves the list: whatever the status
    message was, the next one is a member of [loadingMessages]; from a
    message that is not in the list ([indexOf] gives -1) it is the first
    one. On the list it always moves on to a different message and comes
    back to where it started after six runs, the length of the list. *)
Theorem nextLoadingMessage_cycles :
  (forall prev, In (nextLoadingMessage prev) loadingMessages)
  /\ (forall prev, ~ In prev loadingMessages ->
        indexOf loadingMessages prev = (-1)%Z
        /\ nextLoadingMessage prev = "Warming up the studio lights..."%string)
  /\ (forall m, In m loadingMessages ->
        nextLoadingMessage m <> m
        /\ Nat.iter (length loadingMessages) nextLoadingMessage m = m).
Proof.
  split; [|split].
  - intros prev. unfold nextLoadingMessage, indexOf, loadingMessages.
    cbn [indexOfFrom].
    repeat match goal with
           | |- context [String.eqb ?a prev] => destruct (String.eqb a prev)
           end;
      vm_compute; tauto.
  - intros prev Hnot. unfold nextLoadingMessage, indexOf, loadingMessages in *.
    cbn [indexOfFrom].
    repeat match goal with
           | |- context [String.eqb ?a prev] =>
               destruct (String.eqb_spec a prev) as [<-|?];
               [exfalso; apply Hnot; cbn [In]; auto 10|]
           end.
    split; reflexivity.
  - intros m Hin.
    destruct (loadingMessages_cases m Hin) as [ -> | [ -> | [ -> | [ -> | [ -> | -> ] ] ] ] ];
      (split; [vm_compute; discriminate|vm_compute; reflexivity]).
Qed.

(** X18, for the last message of the list, after which the first follows. *)
Lemma nextLoadingMessage_cycles_witness :
  In "Polishing the final image..."%string loadingMessages
  /\ nextLoadingMessage "Polishing the final image..." <> "Polishing the final image..."%string
  /\ Nat.iter (length loadingMessages) nextLoadingMessage "Polishing the final image..."
     = "Polishing the final image..."%string.
Proof.
  split; [cbn; tauto|].
  apply (proj2 (proj2 nextLoadingMessage_cycles) "Polishing the final image..."%string).
  cbn. tauto.
Defined.

End MessageFacts.
